(** * Incremental gesture annotation scripts: a shallow embedding

    The repository is a set of batch scripts over pandas tables:

    - [s3_llm_non_structured_descriptions.py]: the annotation loop over a
      tree of image folders (load or create the table, ensure the row, skip
      filled cells, sample at most 50 images, ask the model, store, save,
      finally sort and save);
    - [s4_openai_json_descriptions.py]: the same loop over JSON folders,
      without the sampling, once per stage;
    - [s5_generate_command_predictions.py]: the same guarded request and
      assignment for the descriptions of an upstream table, with a
      normalised model answer;
    - [s5_annotation_data_cleaning.py]: the blocklist / trailing period
      clean-up;
    - [s0_human_structured_descriptions.py]: the table of the human
      descriptions (column selection, [unknown] made absent, sort).

    Python [str] values are modelled as [string] (their UTF-8 bytes), a
    table cell as [option string] ([None] is pandas' NaN / [pd.NA]), a
    [DataFrame] as its column labels and its rows.  Cells are text: the
    numeric and boolean re-typing that [pd.read_csv] applies to a column
    whose fields are all numeric or boolean literals is outside the model. *)

From Stdlib Require Import String Ascii List Bool Arith Lia Permutation.
From stdpp Require Import base option list sorting gmap strings pretty.

Local Open Scope string_scope.
Local Open Scope list_scope.

(** ** Python values *)

(** The exception classes the scripts can meet.  [OtherError] stands for any
    class that is not a subclass of one of the others (the OpenAI client's
    own errors, [cv2.error], ...). *)
Inductive exn : Type :=
| KeyError (key : string)
| IndexError
| ValueError (msg : string)
| RuntimeError (msg : string)
| ParserError
| OtherError (name : string).

Inductive result (A : Type) : Type :=
| Ok (a : A)
| Raise (e : exn).

Arguments Ok {A} a.
Arguments Raise {A} e.

(** [list.sort()] / [sorted]: a stable sort.  [le] is the comparison. *)
Fixpoint insort {A : Type} (le : A → A → bool) (x : A) (l : list A) : list A :=
  match l with
  | [] => [x]
  | y :: l' => if le x y then x :: y :: l' else y :: insort le x l'
  end.

Definition isort {A : Type} (le : A → A → bool) (l : list A) : list A :=
  foldr (insort le) [] l.

(** Python compares [str] values by code point, which is the byte order of
    their UTF-8 encodings. *)
Definition sorted (l : list string) : list string := isort String.leb l.

Fixpoint is_sorted (l : list string) : bool :=
  match l with
  | [] => true
  | x :: l' =>
      match l' with
      | [] => true
      | y :: _ => String.leb x y && is_sorted l'
      end
  end.

(** [s.split(sep)] for a one-character separator. *)
Fixpoint split (sep : ascii) (s : string) : list string :=
  match s with
  | EmptyString => [EmptyString]
  | String c s' =>
      if Ascii.eqb c sep then EmptyString :: split sep s'
      else match split sep s' with
           | [] => [String c EmptyString]
           | w :: ws => String c w :: ws
           end
  end.

(** [l[-n]] for [n >= 1]. *)
Definition from_end (n : nat) (l : list string) : result string :=
  if decide ((1 ≤ n)%nat ∧ (n ≤ length l)%nat)
  then match l !! (length l - n) with
       | Some x => Ok x
       | None => Raise IndexError
       end
  else Raise IndexError.

(** ** pandas tables *)

Definition cell : Type := option string.

Definition isna (c : cell) : bool :=
  match c with None => true | Some _ => false end.

Record DataFrame : Type := mkDataFrame {
  columns : list string;
  rows : list (list cell)
}.

(** [columns.get_loc(name)]: the position of a label (the first one; the
    tables of the scripts have distinct labels). *)
Fixpoint get_loc (name : string) (cols : list string) : option nat :=
  match cols with
  | [] => None
  | c :: cols' => if String.eqb c name then Some 0 else S <$> get_loc name cols'
  end.

Definition cell_at (j : nat) (r : list cell) : cell := default None (r !! j).

(** One entry of the mask [df["id_video"] == key], for a [str] key. *)
Definition has_id (i : nat) (key : string) (r : list cell) : Prop :=
  cell_at i r = Some key.

Global Instance has_id_dec (i : nat) (key : string) (r : list cell) :
  Decision (has_id i key r) := decide (cell_at i r = Some key).

Definition ID : string := "id_video".

(** The row that [pd.concat([df, pd.DataFrame({"id_video": [key]})],
    ignore_index=True)] adds under the columns of [df]. *)
Definition new_row (df : DataFrame) (i : nat) (key : string) : list cell :=
  <[i := Some key]> (replicate (length (columns df)) None).

(** <<
    if id_video not in df["id_video"].values:
        df = pd.concat([df, pd.DataFrame({ "id_video": [id_video] })],
                       ignore_index=True)
    >> *)
Definition ensure_row (df : DataFrame) (key : string) : result DataFrame :=
  match get_loc ID (columns df) with
  | None => Raise (KeyError ID)
  | Some i =>
      if bool_decide (Exists (has_id i key) (rows df)) then Ok df
      else Ok (mkDataFrame (columns df) (rows df ++ [new_row df i key]))
  end.

(** The cells [df.loc[df["id_video"] == key, col]], when both labels exist. *)
Definition selected (df : DataFrame) (key col : string) : result (list cell) :=
  match get_loc ID (columns df) with
  | None => Raise (KeyError ID)
  | Some i =>
      match get_loc col (columns df) with
      | None => Raise (KeyError col)
      | Some j => Ok (cell_at j <$> filter (has_id i key) (rows df))
      end
  end.

(** [df.loc[df["id_video"] == key, col].isna().all()] *)
Definition needs_work (df : DataFrame) (key col : string) : result bool :=
  match selected df key col with
  | Raise e => Raise e
  | Ok cs => Ok (forallb isna cs)
  end.

(** [df.loc[df["id_video"] == key, col] = value].  With an existing label
    the rows of the mask are written and nothing else happens, whatever the
    mask selects.  With a new label pandas enlarges the frame by that column
    (and refuses a scalar when the frame has no row). *)
Definition set_cell (df : DataFrame) (key col value : string) : result DataFrame :=
  match get_loc ID (columns df) with
  | None => Raise (KeyError ID)
  | Some i =>
      match get_loc col (columns df) with
      | Some j =>
          Ok (mkDataFrame (columns df)
                ((λ r : list cell, if decide (has_id i key r) then <[j := Some value]> r else r)
                   <$> rows df))
      | None =>
          match rows df with
          | [] => Raise (ValueError "cannot set a frame with no defined index and a scalar")
          | _ =>
              Ok (mkDataFrame (columns df ++ [col])
                    ((λ r : list cell, r ++ [if decide (has_id i key r) then Some value else None])
                       <$> rows df))
          end
      end
  end.

(** The order of [sort_values] on the identifier column: text ascending,
    NaN last. *)
Definition key_le (a b : cell) : bool :=
  match a, b with
  | Some x, Some y => String.leb x y
  | Some _, None => true
  | None, Some _ => false
  | None, None => true
  end.

(** [df.sort_values(by="id_video").reset_index(drop=True)].  Rows with equal
    identifiers are kept in their order here; pandas' default sort does not
    promise that, and no statement below depends on it. *)
Definition sort_values (df : DataFrame) : result DataFrame :=
  match get_loc ID (columns df) with
  | None => Raise (KeyError ID)
  | Some i =>
      Ok (mkDataFrame (columns df)
            (isort (λ r1 r2, key_le (cell_at i r1) (cell_at i r2)) (rows df)))
  end.

(** ** CSV files

    A file is modelled by its records of fields, header first; the quoting of
    the CSV dialect, which carries every field unchanged, is not modelled. *)

Record csv : Type := mkCsv {
  header : list string;
  records : list (list string)
}.

(** [df.to_csv(path, index=False)]: NaN is written as the empty field. *)
Definition to_csv (df : DataFrame) : csv :=
  mkCsv (columns df) ((λ r : list cell, default "" <$> r) <$> rows df).

(** The spellings [pd.read_csv] reads as NaN by default. *)
Definition na_values : list string :=
  [""; "#N/A"; "#N/A N/A"; "#NA"; "-1.#IND"; "-1.#QNAN"; "-NaN"; "-nan";
   "1.#IND"; "1.#QNAN"; "<NA>"; "N/A"; "NA"; "NULL"; "NaN"; "None"; "n/a";
   "nan"; "null"].

Definition read_field (s : string) : cell :=
  if bool_decide (s ∈ na_values) then None else Some s.

(** A record shorter than the header is completed with NaN; a longer one is
    a tokenizing error. *)
Definition read_record (n : nat) (rec : list string) : result (list cell) :=
  if decide ((length rec ≤ n)%nat)
  then Ok ((read_field <$> rec) ++ replicate (n - length rec) None)
  else Raise ParserError.

Fixpoint read_records (n : nat) (recs : list (list string)) : result (list (list cell)) :=
  match recs with
  | [] => Ok []
  | rec :: recs' =>
      match read_record n rec with
      | Raise e => Raise e
      | Ok r =>
          match read_records n recs' with
          | Raise e => Raise e
          | Ok rs => Ok (r :: rs)
          end
      end
  end.

(** [pd.read_csv(path)], for a header of distinct non-empty labels (pandas
    renames repeated and empty labels) and for the fields of a [text_file]
    (below): pandas gives another type to the fields of a column that all
    read as numbers or as booleans, which the cells of this model cannot
    hold. *)
Definition read_csv (f : csv) : result DataFrame :=
  match read_records (length (header f)) (records f) with
  | Raise e => Raise e
  | Ok rs => Ok (mkDataFrame (header f) rs)
  end.





(** The files of the output directory, by path. *)
Definition files : Type := gmap string csv.

(** <<
    columns = [ f"c{i}_description" for i in range(1, 9) ]
    columns.insert(0, "id_video")
    >> *)
Definition slot_columns (suffix : string) : list string :=
  (λ i : nat, "c" +:+ pretty i +:+ suffix) <$> seq 1 8.

Definition schema (suffix : string) : list string := ID :: slot_columns suffix.

(** <<
    if os.path.exists(file_path):
        df = pd.read_csv(file_path)
    else:
        df = pd.DataFrame(columns=columns).astype(str)
    >> *)
Definition load (fs : files) (path : string) (cols : list string) : result DataFrame :=
  match fs !! path with
  | Some f => read_csv f
  | None => Ok (mkDataFrame cols [])
  end.

(** ** [s5_annotation_data_cleaning.py] *)

Definition terms : list string :=
  [ "No gesture performed.";
    "No hand gesture performed.";
    "The user does not perform any gesture.";
    "The user does not perform any hand gesture.";
    "The user does not perform any hand gestures.";
    "The user does not perform any gesture throughout the sequence.";
    "The user does not perform any distinct gesture.";
    "No discernible hand gesture is performed." ].

(** A cell-wise transformation of the whole frame. *)
Definition map_cells (f : cell → cell) (df : DataFrame) : DataFrame :=
  mkDataFrame (columns df) ((λ r : list cell, f <$> r) <$> rows df).

(** One cell of [df.replace(term, pd.NA)]: an exact match becomes NA. *)
Definition replace_value (term : string) (c : cell) : cell :=
  match c with
  | Some s => if String.eqb s term then None else Some s
  | None => None
  end.

Definition NL : ascii := ascii_of_nat 10.

(** [re.sub(r"\.$", "", s)]: [$] matches at the end of the string and just
    before a newline that ends the string, so the pattern has at most one
    match: a final period, or the period in front of a final newline. *)
Fixpoint sub_final_dot (s : string) : string :=
  match s with
  | EmptyString => EmptyString
  | String c s' =>
      if Ascii.eqb c "." && (String.eqb s' "" || String.eqb s' (String NL ""))
      then s'
      else String c (sub_final_dot s')
  end.

(** One cell of [df.replace(r"\.$", "", regex=True)]. *)
Definition replace_regex (c : cell) : cell := sub_final_dot <$> c.

(** <<
    for term in terms:
        df = df.replace(term, pd.NA)
    df = df.replace(r"\.$", "", regex=True)
    >> *)
Definition clean (df : DataFrame) : DataFrame :=
  map_cells replace_regex
    (foldl (λ d term, map_cells (replace_value term) d) df terms).

(** ** The scripts' state and effects *)

Record environ : Type := mkEnviron {
  AZURE_OPENAI_API_KEY : option string;
  AZURE_OPENAI_ENDPOINT : option string
}.

Record AzureOpenAI : Type := mkAzureOpenAI {
  api_key : string;
  api_version : string;
  azure_endpoint : string
}.

Definition get_azure_openai_client (env : environ) : result AzureOpenAI :=
  match AZURE_OPENAI_API_KEY env with
  | None =>
      Raise (ValueError
        "API key for Microsoft Azure OpenAI not found in environment variables.")
  | Some key =>
      match AZURE_OPENAI_ENDPOINT env with
      | None =>
          Raise (ValueError
            "Azure endpoint for OpenAI not found in environment variables.")
      | Some endpoint => Ok (mkAzureOpenAI key "2024-02-01" endpoint)
      end
  end.

(** What a run can change: the variable [df], the files, what was printed
    and the requests sent to the model (their payloads, in order). *)
Record state : Type := mkState {
  st_df : DataFrame;
  st_files : files;
  st_stdout : list string;
  st_requests : list (list string)
}.

Definition M (A : Type) : Type := state → result A * state.

Definition ret {A : Type} (a : A) : M A := λ st, (Ok a, st).

Definition raise {A : Type} (e : exn) : M A := λ st, (Raise e, st).

Definition bind {A B : Type} (m : M A) (f : A → M B) : M B :=
  λ st, match m st with
        | (Ok a, st') => f a st'
        | (Raise e, st') => (Raise e, st')
        end.

Notation "'let*' x ':=' m 'in' k" := (bind m (λ x, k))
  (at level 10, x pattern, m at level 100, k at level 200, only parsing).
Notation "m >> k" := (bind m (λ _, k)) (at level 100, k at level 200, right associativity).

Definition lift {A : Type} (r : result A) : M A := λ st, (r, st).

(** The result of a [try] body, handed to its handlers. *)
Definition try {A : Type} (m : M A) : M (result A) :=
  λ st, let (r, st') := m st in (Ok r, st').

(** [df = f(df)] *)
Definition assign_df (f : DataFrame → result DataFrame) : M unit :=
  λ st, match f (st_df st) with
        | Ok d => (Ok tt, mkState d (st_files st) (st_stdout st) (st_requests st))
        | Raise e => (Raise e, st)
        end.

Definition read_df {A : Type} (f : DataFrame → result A) : M A :=
  λ st, (f (st_df st), st).

Definition print (line : string) : M unit :=
  λ st, (Ok tt, mkState (st_df st) (st_files st) (st_stdout st ++ [line]) (st_requests st)).

(** [df.to_csv(path, index=False)] *)
Definition save (path : string) : M unit :=
  λ st, (Ok tt, mkState (st_df st) (<[path := to_csv (st_df st)]> (st_files st))
                  (st_stdout st) (st_requests st)).

(** [for x in l: body(x)] *)
Fixpoint for_each {A : Type} (l : list A) (body : A → M unit) : M unit :=
  match l with
  | [] => ret tt
  | x :: l' => body x >> for_each l' body
  end.

(** ** [s3_llm_non_structured_descriptions.py] *)

(** The surroundings of a run: the environment variables, the directories
    that [os.walk] finds under the image folder, the image files that
    [glob] finds in each, and the model behind the client (reading and
    encoding the images, then the completion request). *)
Record world : Type := mkWorld {
  environment : environ;
  walk : list string;
  glob : string → list string;
  chat : AzureOpenAI → list string → result string
}.

Definition request (w : world) (client : AzureOpenAI) (payload : list string) : M string :=
  λ st, (chat w client payload,
         mkState (st_df st) (st_files st) (st_stdout st) (st_requests st ++ [payload])).

Definition describe_hand_gesture (w : world) (image_paths : list string) : M string :=
  let* client := lift (get_azure_openai_client (environment w)) in
  request w client image_paths.

Definition SAMPLE_SIZE : nat := 50.

(** [int((file_count - 1) * i / (SAMPLE_SIZE - 1))] for [i] in
    [range(SAMPLE_SIZE)].  Python divides in floating point and truncates;
    for these integers the result is the integer quotient: a quotient that
    is an integer is computed exactly, and one that is not lies at least
    1/49 away from the integers, far more than the rounding error. *)
Definition sample_indices (file_count : nat) : list nat :=
  (λ i, (file_count - 1) * i / (SAMPLE_SIZE - 1)) <$> seq 0 SAMPLE_SIZE.

(** <<
    if len(filenames) > 50:
        ...
        filenames = [ filenames[i] for i in indices ]
        filenames.sort()
    >>
    Every index is below [len(filenames)] ([sample_indices_lt]), so no
    subscript fails. *)
Definition sample (filenames : list string) : list string :=
  if decide (50 < length filenames)%nat
  then sorted ((λ i, default "" (filenames !! i)) <$> sample_indices (length filenames))
  else filenames.

Definition FILE_PATH : string :=
  "../data/descriptions/d3_llm_non_structured_descriptions.csv".

(** The loop below is written once for the two scripts that have it.  They
    differ by what they send for a folder (the image script samples the
    file names, inside its [try]; the JSON script sends them all) and by the
    file they save to. *)
Record loop_config : Type := mkLoopConfig {
  payload : list string → list string;
  file_path : string
}.

(** [s3_llm_non_structured_descriptions.py] *)
Definition s3 : loop_config := mkLoopConfig sample FILE_PATH.

(** [s4_openai_json_descriptions.py], for the stage number [i] (from 0),
    named [stage]. *)
Definition s4 (i : nat) (stage : string) : loop_config :=
  mkLoopConfig (λ filenames, filenames)
    ("../data/descriptions/d" +:+ pretty (i + 4)%nat +:+ "_openai_" +:+ stage
       +:+ "_descriptions.csv").

(** The body of [for folder in folders]. *)
Definition process_folder (c : loop_config) (w : world) (folder : string) : M unit :=
  let filenames := sorted (glob w folder) in
  match filenames with
  | [] => ret tt
  | _ :: _ =>
      let* id_video := lift (from_end 2 (split "/" folder)) in
      let* id_description := lift (from_end 1 (split "/" folder)) in
      assign_df (λ d, ensure_row d id_video) >>
      let DESCRIPTION_COL := id_description +:+ "_description" in
      print ("Processing " +:+ id_video +:+ " / description " +:+ id_description +:+ "...") >>
      let* todo := read_df (λ d, needs_work d id_video DESCRIPTION_COL) in
      if todo : bool then
        let* r := try (describe_hand_gesture w (payload c filenames)) in
        match r with
        | Raise (RuntimeError msg) => print ("Exception Error: " +:+ msg +:+ ".")
        | Raise e => raise e
        | Ok result =>
            assign_df (λ d, set_cell d id_video DESCRIPTION_COL result) >>
            save (file_path c)
        end
      else ret tt
  end.

(** The loop over the sorted folders. *)
Definition process_folders (c : loop_config) (w : world) : M unit :=
  for_each (sorted (walk w)) (process_folder c w).

(** The loop, then the final [sort_values] and [to_csv]. *)
Definition annotate (c : loop_config) (w : world) : M unit :=
  process_folders c w >>
  assign_df sort_values >>
  save (file_path c).

(** [df = ...] from the file at [path], or the empty frame of the schema. *)
Definition load_table (path : string) (cols : list string) : M unit :=
  λ st, match load (st_files st) path cols with
        | Ok d => (Ok tt, mkState d (st_files st) (st_stdout st) (st_requests st))
        | Raise e => (Raise e, st)
        end.

(** A script: load or create the table, then annotate. *)
Definition main (c : loop_config) (w : world) : M unit :=
  load_table (file_path c) (schema "_description") >> annotate c w.

(** The JSON script does so for its three stages in turn, the model being
    asked in the way of the stage. *)
Definition main_stages (w : string → world) : M unit :=
  main (s4 0 "poses") (w "poses") >>
  main (s4 1 "landmarks") (w "landmarks") >>
  main (s4 2 "combined") (w "combined").

(** A run of the image script over the files [fs]. *)
Definition run (w : world) (fs : files) : result unit * state :=
  main s3 w (mkState (mkDataFrame [] []) fs [] []).

(** ** [s5_generate_command_predictions.py] *)

Definition is_upper (c : ascii) : bool :=
  (65 <=? nat_of_ascii c)%nat && (nat_of_ascii c <=? 90)%nat.

Definition is_lower (c : ascii) : bool :=
  (97 <=? nat_of_ascii c)%nat && (nat_of_ascii c <=? 122)%nat.

(** The class [[a-zA-Z]]. *)
Definition is_alpha (c : ascii) : bool := is_upper c || is_lower c.

(** A continuation byte of a multi-byte UTF-8 character. *)
Definition is_continuation (c : ascii) : bool :=
  (128 <=? nat_of_ascii c)%nat && (nat_of_ascii c <? 192)%nat.

(** [re.sub(r'[^a-zA-Z]', ' ', s)]: every character that is not an ASCII
    letter becomes one space.  On the UTF-8 bytes, the first byte of such a
    character becomes the space and its continuation bytes disappear. *)
Fixpoint sub_non_alpha (s : string) : string :=
  match s with
  | EmptyString => EmptyString
  | String c s' =>
      if is_alpha c then String c (sub_non_alpha s')
      else if is_continuation c then sub_non_alpha s'
      else String " " (sub_non_alpha s')
  end.

(** The ASCII characters that [str.strip()] removes.  It also removes the
    non-ASCII white space of Unicode, which the strings it is applied to
    here (ASCII letters and spaces) do not contain. *)
Definition is_space (c : ascii) : bool :=
  (9 <=? nat_of_ascii c)%nat && (nat_of_ascii c <=? 13)%nat
  || (28 <=? nat_of_ascii c)%nat && (nat_of_ascii c <=? 32)%nat.

Fixpoint lstrip (s : string) : string :=
  match s with
  | EmptyString => EmptyString
  | String c s' => if is_space c then lstrip s' else s
  end.

Fixpoint rstrip (s : string) : string :=
  match s with
  | EmptyString => EmptyString
  | String c s' =>
      match rstrip s' with
      | EmptyString => if is_space c then EmptyString else String c EmptyString
      | t => String c t
      end
  end.

Definition strip (s : string) : string := rstrip (lstrip s).

Definition upper (c : ascii) : ascii :=
  if is_lower c then ascii_of_nat (nat_of_ascii c - 32) else c.

Definition lower (c : ascii) : ascii :=
  if is_upper c then ascii_of_nat (nat_of_ascii c + 32) else c.

Fixpoint map_chars (f : ascii → ascii) (s : string) : string :=
  match s with
  | EmptyString => EmptyString
  | String c s' => String (f c) (map_chars f s')
  end.

(** [s.capitalize()] on ASCII text: the first character in upper case, the
    others in lower case. *)
Definition capitalize (s : string) : string :=
  match s with
  | EmptyString => EmptyString
  | String c s' => String (upper c) (map_chars lower s')
  end.

(** [re.sub(r'[^a-zA-Z]', ' ', response_content).strip().capitalize()] *)
Definition normalize (response_content : string) : string :=
  capitalize (strip (sub_non_alpha response_content)).

(** The model behind [predict_ucp_command]: environment and completion for a
    description. *)
Record predictor : Type := mkPredictor {
  p_environment : environ;
  p_chat : AzureOpenAI → string → result string
}.

Definition predict_ucp_command (p : predictor) (description : string) : M string :=
  let* client := lift (get_azure_openai_client (p_environment p)) in
  let* response_content :=
    (λ st, (p_chat p client description,
            mkState (st_df st) (st_files st) (st_stdout st)
                    (st_requests st ++ [[description]]))) in
  ret (normalize response_content).

(** What the loop stores: [result.strip()]. *)
Definition command_value (response_content : string) : string :=
  strip (normalize response_content).

(** The body of [for id_description, description in enumerate(row.values[1:])]
    for a row whose identifier is the text [id_video]; a NaN description is
    skipped.  [predict_ucp_command] returns a [str], so the test
    [result is None] never holds. *)
Definition process_description (p : predictor) (file_path id_video : string)
    (id_description : nat) (description : cell) : M unit :=
  match description with
  | None => ret tt
  | Some description =>
      let COMMAND_COL := "c" +:+ pretty (id_description + 1)%nat +:+ "_command" in
      print ("Processing " +:+ id_video +:+ " / description " +:+ COMMAND_COL +:+ "...") >>
      let* todo := read_df (λ d, needs_work d id_video COMMAND_COL) in
      if todo : bool then
        let* r := try (predict_ucp_command p description) in
        match r with
        | Raise (RuntimeError msg) => print ("Exception Error: " +:+ msg +:+ ".")
        | Raise e => raise e
        | Ok result =>
            assign_df (λ d, set_cell d id_video COMMAND_COL (strip result)) >>
            save file_path
        end
      else ret tt
  end.

(** ** Tables used as examples *)

Definition description_columns : list string :=
  ["id_video"; "c1_description"; "c2_description"; "c3_description";
   "c4_description"; "c5_description"; "c6_description"; "c7_description";
   "c8_description"].

(** A table with the single row [v2], whose first slot is filled. *)
Definition table_v2 : DataFrame :=
  mkDataFrame description_columns
    [[Some "v2"; Some "Open palm waves"; None; None; None; None; None; None; None]].

(** [s.endswith(suffix)] *)
Fixpoint ends_with (suffix s : string) : bool :=
  String.eqb s suffix
  || match s with
     | EmptyString => false
     | String _ s' => ends_with suffix s'
     end.

(** Text on which one pass of the clean-up leaves no final period behind:
    it ends neither with two periods, nor with period, newline, period, nor
    with two periods and a newline (the pattern also matches in front of a
    final newline). *)
Definition settled (s : string) : bool :=
  negb (ends_with ".." s)
  && negb (ends_with (String "." (String NL ".")) s)
  && negb (ends_with (String "." (String "." (String NL ""))) s).

(** A table with a description that ends with two periods. *)
Definition table_dots : DataFrame :=
  mkDataFrame ["id_video"; "c1_description"] [[Some "v1"; Some "Hand raised.."]].

(** A table with the examples of the clean-up. *)
Definition table_raised : DataFrame :=
  mkDataFrame ["id_video"; "c1_description"; "c2_description"]
    [[Some "v1"; Some "No gesture performed."; Some "Hand raised."]].

(** Every character of [s] satisfies [P]. *)
Fixpoint all_chars (P : ascii → bool) (s : string) : bool :=
  match s with
  | EmptyString => true
  | String c s' => P c && all_chars P s'
  end.

Definition first_char (s : string) : option ascii :=
  match s with
  | EmptyString => None
  | String c _ => Some c
  end.

Fixpoint last_char (s : string) : option ascii :=
  match s with
  | EmptyString => None
  | String c s' =>
      match last_char s' with
      | None => Some c
      | Some x => Some x
      end
  end.

Definition letter_or_space (c : ascii) : bool := is_alpha c || Ascii.eqb c " ".




(** The sorted image files of a clip of [n] frames (below 1000):
    [frame_000.jpg], [frame_001.jpg], ... *)
Definition frame_name (i : nat) : string :=
  "frame_" +:+ pretty (i / 100)%nat +:+ pretty (i / 10 mod 10)%nat
           +:+ pretty (i mod 10)%nat +:+ ".jpg".

Definition frames (n : nat) : list string := frame_name <$> seq 0 n.

(** ** The cases of one pass of the loop body

    [folder_step c w folder st r st'] lists the ways through
    [process_folder]; the two are shown to agree ([process_folder_step]). *)

Definition column_of (id_description : string) : string :=
  id_description +:+ "_description".

Definition processing_line (id_video id_description : string) : string :=
  "Processing " +:+ id_video +:+ " / description " +:+ id_description +:+ "...".

(** The state once the row is ensured and the progress line printed. *)
Definition entered (st : state) (df1 : DataFrame) (k d : string) : state :=
  mkState df1 (st_files st) (st_stdout st ++ [processing_line k d]) (st_requests st).

(** The state once the request has been sent. *)
Definition asked (st : state) (payload : list string) : state :=
  mkState (st_df st) (st_files st) (st_stdout st) (st_requests st ++ [payload]).

Definition printed (st : state) (line : string) : state :=
  mkState (st_df st) (st_files st) (st_stdout st ++ [line]) (st_requests st).

Definition stored (path : string) (st : state) (df2 : DataFrame) : state :=
  mkState df2 (<[path := to_csv df2]> (st_files st)) (st_stdout st) (st_requests st).

Inductive folder_step (c : loop_config) (w : world) (folder : string) (st : state) :
    result unit → state → Prop :=
| step_no_image :
    sorted (glob w folder) = [] →
    folder_step c w folder st (Ok tt) st
| step_bad_path e :
    sorted (glob w folder) ≠ [] →
    from_end 2 (split "/" folder) = Raise e →
    folder_step c w folder st (Raise e) st
| step_no_id_column k d e :
    sorted (glob w folder) ≠ [] →
    from_end 2 (split "/" folder) = Ok k →
    from_end 1 (split "/" folder) = Ok d →
    ensure_row (st_df st) k = Raise e →
    folder_step c w folder st (Raise e) st
| step_no_column k d df1 e :
    sorted (glob w folder) ≠ [] →
    from_end 2 (split "/" folder) = Ok k →
    from_end 1 (split "/" folder) = Ok d →
    ensure_row (st_df st) k = Ok df1 →
    needs_work df1 k (column_of d) = Raise e →
    folder_step c w folder st (Raise e) (entered st df1 k d)
| step_filled k d df1 :
    sorted (glob w folder) ≠ [] →
    from_end 2 (split "/" folder) = Ok k →
    from_end 1 (split "/" folder) = Ok d →
    ensure_row (st_df st) k = Ok df1 →
    needs_work df1 k (column_of d) = Ok false →
    folder_step c w folder st (Ok tt) (entered st df1 k d)
| step_unconfigured k d df1 e :
    sorted (glob w folder) ≠ [] →
    from_end 2 (split "/" folder) = Ok k →
    from_end 1 (split "/" folder) = Ok d →
    ensure_row (st_df st) k = Ok df1 →
    needs_work df1 k (column_of d) = Ok true →
    get_azure_openai_client (environment w) = Raise e →
    folder_step c w folder st (Raise e) (entered st df1 k d)
| step_stored k d df1 client result df2 :
    sorted (glob w folder) ≠ [] →
    from_end 2 (split "/" folder) = Ok k →
    from_end 1 (split "/" folder) = Ok d →
    ensure_row (st_df st) k = Ok df1 →
    needs_work df1 k (column_of d) = Ok true →
    get_azure_openai_client (environment w) = Ok client →
    chat w client (payload c (sorted (glob w folder))) = Ok result →
    set_cell df1 k (column_of d) result = Ok df2 →
    folder_step c w folder st (Ok tt)
      (stored (file_path c)
         (asked (entered st df1 k d) (payload c (sorted (glob w folder)))) df2)
| step_rejected k d df1 client msg :
    sorted (glob w folder) ≠ [] →
    from_end 2 (split "/" folder) = Ok k →
    from_end 1 (split "/" folder) = Ok d →
    ensure_row (st_df st) k = Ok df1 →
    needs_work df1 k (column_of d) = Ok true →
    get_azure_openai_client (environment w) = Ok client →
    chat w client (payload c (sorted (glob w folder))) = Raise (RuntimeError msg) →
    folder_step c w folder st (Ok tt)
      (printed (asked (entered st df1 k d) (payload c (sorted (glob w folder))))
               ("Exception Error: " +:+ msg +:+ "."))
| step_failed k d df1 client e :
    sorted (glob w folder) ≠ [] →
    from_end 2 (split "/" folder) = Ok k →
    from_end 1 (split "/" folder) = Ok d →
    ensure_row (st_df st) k = Ok df1 →
    needs_work df1 k (column_of d) = Ok true →
    get_azure_openai_client (environment w) = Ok client →
    chat w client (payload c (sorted (glob w folder))) = Raise e →
    (∀ msg, e ≠ RuntimeError msg) →
    folder_step c w folder st (Raise e)
      (asked (entered st df1 k d) (payload c (sorted (glob w folder)))).

(** [kept df df']: every selection of [df] that holds a present cell is the
    same selection in [df'], up to the order of its rows. *)
Definition kept (df df' : DataFrame) : Prop :=
  columns df' = columns df ∧
  ∀ key col cs v,
    selected df key col = Ok cs → Some v ∈ cs →
    ∃ cs', selected df' key col = Ok cs' ∧ cs' ≡ₚ cs.

(** ** Worlds used as examples *)

Definition configured : environ :=
  mkEnviron (Some "secret") (Some "https://example.openai.azure.com/").

Definition unconfigured : environ := mkEnviron None None.

(** One image per folder; the model answers [Closed fist moves up.], except
    that it rejects the images of [v2] with a [RuntimeError]. *)
Definition one_image (folder : string) : list string := [folder +:+ "/frame_000.jpg"].

Definition fist_model (_ : AzureOpenAI) (images : list string) : result string :=
  if bool_decide (images = ["dataset/images/v2/c1/frame_000.jpg"])
  then Raise (RuntimeError "content blocked")
  else Ok "Closed fist moves up.".

(** Three units: the first slot of [v1], [v2] and [v3]. *)
Definition three_units : world :=
  mkWorld configured
    ["dataset/images/v3/c1"; "dataset/images/v1/c1"; "dataset/images/v2/c1"]
    one_image fist_model.

(** Two units, [v2] and [v3], without credentials. *)
Definition two_units_unconfigured : world :=
  mkWorld unconfigured ["dataset/images/v3/c1"; "dataset/images/v2/c1"]
    one_image (λ _ _, Ok "Closed fist moves up.").

(** Only the unit of [v2], with a model that would answer. *)
Definition v2_again : world :=
  mkWorld configured ["dataset/images/v2/c1"] one_image
    (λ _ _, Ok "Closed fist moves up.").

Definition v2_again_unconfigured : world :=
  mkWorld unconfigured ["dataset/images/v2/c1"] one_image
    (λ _ _, Ok "Closed fist moves up.").


Definition empty_table : DataFrame := mkDataFrame description_columns [].

(** The state in which the loop starts on the table [df], with the files
    [fs]. *)
Definition start (df : DataFrame) (fs : files) : state := mkState df fs [] [].

(** [df'] is [df] with rows of [ensure_row] appended. *)
Definition appended (df df' : DataFrame) : Prop :=
  columns df' = columns df ∧
  ∃ extra,
    rows df' = rows df ++ extra ∧
    Forall (λ row, ∃ i k, get_loc ID (columns df) = Some i ∧ row = new_row df i k)
           extra.

(** ** The units of a run

    A folder with images is a unit; its target is the cell named by the last
    two components of its path. *)

Definition target (folder : string) : option (string * string) :=
  match from_end 2 (split "/" folder), from_end 1 (split "/" folder) with
  | Ok k, Ok d => Some (k, d)
  | _, _ => None
  end.

Definition has_images (w : world) (folder : string) : Prop :=
  sorted (glob w folder) ≠ [].


(** Every row is as wide as the labels. *)
Definition rectangular (df : DataFrame) : Prop :=
  Forall (λ r : list cell, length r = length (columns df)) (rows df).





(** ** Orders and identifiers *)

(** The identifier cells of a table, in row order, [i] being the position of
    [id_video]. *)
Definition ids (i : nat) (df : DataFrame) : list cell := cell_at i <$> rows df.

(** [a] comes no later than [b] in the order of [sort_values]. *)
Definition key_order (a b : cell) : Prop := key_le a b = true.

(** A table with rows out of order, one of them without identifier. *)
Definition table_unsorted : DataFrame :=
  mkDataFrame ["id_video"; "c1_description"]
    [[Some "v3"; None]; [None; Some "Thumb up"]; [Some "v1"; Some "Open palm"]].

Global Instance has_images_dec (w : world) (folder : string) :
  Decision (has_images w folder) := decide (sorted (glob w folder) ≠ []).

(** What a script sends for a folder. *)
Definition payload_of (c : loop_config) (w : world) (folder : string) : list string :=
  payload c (sorted (glob w folder)).

(** The folders a run works on: those with image files, in sorted order. *)
Definition units (w : world) : list string :=
  filter (has_images w) (sorted (walk w)).

(** One clip of 120 frames, which the model describes. *)
Definition long_clip : world :=
  mkWorld configured ["dataset/images/v1/c1"]
    (λ folder, (λ name, folder +:+ "/" +:+ name) <$> frames 120)
    (λ _ _, Ok "Index finger draws a circle").

(** The text has no path separator. *)
Definition no_slash (s : string) : bool :=
  all_chars (λ c, negb (Ascii.eqb c "/")) s.

(** A folder of images that is not the folder of a slot: the images lie in
    the folder of the video itself. *)
Definition stray_folder : world :=
  mkWorld configured ["dataset/images/v1"; "dataset/images/v1/c1"]
    one_image (λ _ _, Ok "Closed fist moves up.").

(** ** The clean-up, cell by cell and file by file *)

(** The effect of the whole clean-up on one cell: a blocklist sentence
    becomes absent, any other text loses its final period. *)
Definition clean_cell (c : cell) : cell :=
  match c with
  | Some s => if bool_decide (s ∈ terms) then None else Some (sub_final_dot s)
  | None => None
  end.

(** The body of [for filename in filenames] of the cleaning script: read,
    clean, write back to the same path.  The names come from [glob], so the
    file exists; [pd.read_csv] raises [FileNotFoundError] otherwise. *)
Definition clean_file (fs : files) (filename : string) : result files :=
  match fs !! filename with
  | None => Raise (OtherError "FileNotFoundError")
  | Some f =>
      match read_csv f with
      | Raise e => Raise e
      | Ok df => Ok (<[filename := to_csv (clean df)]> fs)
      end
  end.

(** The loop of the cleaning script over the sorted file names. *)
Fixpoint clean_files (fs : files) (filenames : list string) : result files :=
  match filenames with
  | [] => Ok fs
  | filename :: filenames' =>
      match clean_file fs filename with
      | Raise e => Raise e
      | Ok fs' => clean_files fs' filenames'
      end
  end.

(** A file with two descriptions to clean. *)
Definition file_raised : csv :=
  mkCsv ["id_video"; "c1_description"; "c2_description"]
    [["v1"; "No gesture performed."; "Hand raised."]; ["v2"; "Thumb up."]].

(** Two states with the same table and the same file at [path]. *)
Definition same_at (path : string) (s1 s2 : state) : Prop :=
  st_df s1 = st_df s2 ∧ st_files s1 !! path = st_files s2 !! path.

(** The worlds of the three stages: one folder of JSON files, described in
    the way of the stage. *)
Definition stage_world (stage : string) : world :=
  mkWorld configured ["dataset/json/v1/c1"]
    (λ folder, [folder +:+ "/frame_000.json"])
    (λ _ _, Ok ("Described from " +:+ stage)).

(** ** [s0_human_structured_descriptions.py] *)

(** The positions of the labels [cols] among the labels [have]; a label that
    is not there is a [KeyError] (pandas names all the missing labels in its
    message; the first one is kept here). *)
Fixpoint get_locs (cols have : list string) : result (list nat) :=
  match cols with
  | [] => Ok []
  | c :: cols' =>
      match get_loc c have with
      | None => Raise (KeyError c)
      | Some j =>
          match get_locs cols' have with
          | Raise e => Raise e
          | Ok js => Ok (j :: js)
          end
      end
  end.

(** [df[columns]]: the listed columns, in the listed order. *)
Definition select_columns (cols : list string) (df : DataFrame) : result DataFrame :=
  match get_locs cols (columns df) with
  | Raise e => Raise e
  | Ok js => Ok (mkDataFrame cols ((λ r : list cell, (λ j, cell_at j r) <$> js) <$> rows df))
  end.

(** [sub in s] *)
Fixpoint contains (sub s : string) : bool :=
  String.prefix sub s
  || match s with
     | EmptyString => false
     | String _ s' => contains sub s'
     end.

(** One cell of [df.replace(r"\s*unknown\s*", pd.NA, regex=True)].  The
    replacement value is not a [str], so pandas replaces the whole cell as
    soon as the pattern is found somewhere in it ([re.search]); the pattern
    is found exactly when the text contains [unknown], the white space around
    it being optional. *)
Definition replace_unknown (c : cell) : cell :=
  match c with
  | Some s => if contains "unknown" s then None else Some s
  | None => None
  end.

(** The table that the script computes from the raw annotations:
    <<
    df = df[columns]
    df = df.replace(r"\s*unknown\s*", pd.NA, regex=True)
    df = df.sort_values(by="id_video").reset_index(drop=True)
    >> *)
Definition structured_descriptions (df : DataFrame) : result DataFrame :=
  match select_columns (schema "_description") df with
  | Raise e => Raise e
  | Ok d => sort_values (map_cells replace_unknown d)
  end.

Definition ELICIT_CAM : string := "../dataset/elicit_cam.csv".

Definition D0_PATH : string := "../data/descriptions/d0_human_structured_descriptions.csv".

(** The script: read the raw file, compute the table, write it to the other
    path. *)
Definition s0_main (fs : files) : result files :=
  match fs !! ELICIT_CAM with
  | None => Raise (OtherError "FileNotFoundError")
  | Some f =>
      match read_csv f with
      | Raise e => Raise e
      | Ok df =>
          match structured_descriptions df with
          | Raise e => Raise e
          | Ok d => Ok (<[D0_PATH := to_csv d]> fs)
          end
      end
  end.

(** Raw annotations: a column that the script drops, the identifier not in
    the first place, a slot that is not known. *)
Definition raw_annotations : DataFrame :=
  mkDataFrame
    ["participant"; "c1_description"; "id_video"; "c2_description"; "c3_description";
     "c4_description"; "c5_description"; "c6_description"; "c7_description";
     "c8_description"]
    [[Some "p2"; Some "palm up"; Some "v2"; Some " unknown "; None; None; None; None;
      None; None];
     [Some "p1"; Some "hand unknown side"; Some "v1"; Some "fist"; None; None; None;
      None; None; None]].

(** ** The loop of [s5_generate_command_predictions.py] *)

Definition command_column (id_description : nat) : string :=
  "c" +:+ pretty (id_description + 1)%nat +:+ "_command".

(** The body of [for index, row in df_annotations.iterrows()], for a row of
    the upstream table whose identifier is the text [fst row], [snd row]
    being its other values ([row.values[1:]]), numbered from 0 by
    [enumerate]. *)
Definition process_row (p : predictor) (file_path : string) (row : string * list cell) :
    M unit :=
  assign_df (λ d, ensure_row d (fst row)) >>
  for_each (zip (seq 0 (length (snd row))) (snd row))
    (λ x, process_description p file_path (fst row) (fst x) (snd x)).

(** The rows of one upstream table, then the final [sort_values] and
    [to_csv]. *)
Definition predict_commands (p : predictor) (file_path : string)
    (annotations : list (string * list cell)) : M unit :=
  for_each annotations (process_row p file_path) >>
  assign_df sort_values >>
  save file_path.

(** Every text of [df] outside the identifier column is a text of [df0] in
    the same selection, or a normalised answer. *)
Definition commands_or_old (df0 df : DataFrame) : Prop :=
  ∀ key col cs v,
    col ≠ ID → selected df key col = Ok cs → Some v ∈ cs →
    (∃ cs0, selected df0 key col = Ok cs0 ∧ Some v ∈ cs0)
    ∨ ∃ response_content, v = command_value response_content.

Definition command_columns : list string :=
  ["id_video"; "c1_command"; "c2_command"; "c3_command"; "c4_command"; "c5_command";
   "c6_command"; "c7_command"; "c8_command"].

(** A table of commands with one row, its first slot filled. *)
Definition commands_v1 : DataFrame :=
  mkDataFrame command_columns
    [[Some "v1"; Some "Go back"; None; None; None; None; None; None; None]].

(** A model that answers with a numbered, quoted command. *)
Definition quoting : predictor :=
  mkPredictor configured (λ _ description, Ok ("1. 'volume UP'" +:+ String NL "")).

(** Two upstream rows: [v1] with two descriptions, [v2] with one and a
    missing one. *)
Definition two_rows : list (string * list cell) :=
  [("v2", [None; Some "Thumb points up"]);
   ("v1", [Some "Open palm waves"; Some "Index finger draws a circle"])].

(** The descriptions of the upstream rows that are present, in the order of
    the loop. *)
Definition present_descriptions (annotations : list (string * list cell)) : list string :=
  annotations ≫= (λ row, omap id (snd row)).

(** * Properties *)

(** ** Labels and rows *)

Lemma get_loc_lookup (name : string) (cols : list string) (i : nat) :
  get_loc name cols = Some i → cols !! i = Some name.
Proof.
  revert i. induction cols as [|c cols IH]; intros i; simpl; [done|].
  destruct (String.eqb_spec c name) as [->|Hne].
  - intros [= <-]. done.
  - destruct (get_loc name cols) as [k|]; simpl; [|done].
    intros [= <-]. simpl. by apply IH.
Qed.

Lemma get_loc_lt (name : string) (cols : list string) (i : nat) :
  get_loc name cols = Some i → i < length cols.
Proof. intros H. eapply lookup_lt_Some, get_loc_lookup, H. Qed.

Lemma get_loc_inj (a b : string) (cols : list string) (i : nat) :
  get_loc a cols = Some i → get_loc b cols = Some i → a = b.
Proof.
  intros Ha Hb. apply get_loc_lookup in Ha, Hb. congruence.
Qed.

Lemma cell_at_replicate (j n : nat) : cell_at j (replicate n (None : cell)) = None.
Proof.
  unfold cell_at. destruct (replicate n (None : cell) !! j) as [c|] eqn:E; [|done].
  apply lookup_replicate in E as [-> _]. done.
Qed.

Lemma cell_at_insert_eq (i : nat) (v : cell) (r : list cell) :
  i < length r → cell_at i (<[i := v]> r) = v.
Proof. intros H. unfold cell_at. by rewrite list_lookup_insert_eq. Qed.

Lemma cell_at_insert_ne (i j : nat) (v : cell) (r : list cell) :
  i ≠ j → cell_at j (<[i := v]> r) = cell_at j r.
Proof. intros H. unfold cell_at. by rewrite list_lookup_insert_ne. Qed.

Lemma new_row_id (df : DataFrame) (i : nat) (key : string) :
  i < length (columns df) → cell_at i (new_row df i key) = Some key.
Proof.
  intros H. unfold new_row. apply cell_at_insert_eq. by rewrite length_replicate.
Qed.

Lemma new_row_slot (df : DataFrame) (i j : nat) (key : string) :
  j ≠ i → cell_at j (new_row df i key) = None.
Proof.
  intros H. unfold new_row. rewrite cell_at_insert_ne by done.
  apply cell_at_replicate.
Qed.

Lemma not_Exists_has_id (i : nat) (key : string) (rs : list (list cell)) :
  ¬ Exists (has_id i key) rs ↔ Some key ∉ (cell_at i <$> rs).
Proof.
  rewrite Exists_exists, list_elem_of_fmap. unfold has_id. split.
  - intros H (r & Hr & Hin). apply H. eauto.
  - intros H (r & Hin & Hr). apply H. eauto.
Qed.

(** ** TableStore *)

(** C9: when no file exists at the path, loading returns the empty table of
    the schema: the identifier column followed by the eight slot columns, and
    no row. *)
Theorem load_missing_file (fs : files) (path suffix : string) :
  fs !! path = None →
  ∃ df,
    load fs path (schema suffix) = Ok df ∧
    rows df = [] ∧
    columns df
    = "id_video"
      :: ((λ i : nat, "c" +:+ pretty i +:+ suffix) <$> [1; 2; 3; 4; 5; 6; 7; 8]) ∧
    length (columns df) = 9.
Proof.
  intros H. unfold load. rewrite H. eexists. split; [reflexivity|].
  repeat split.
Qed.

Lemma load_missing_file_witness :
  (∅ : files) !! FILE_PATH = None ∧
  ∃ df,
    load ∅ FILE_PATH (schema "_description") = Ok df ∧
    rows df = [] ∧
    columns df
    = ["id_video"; "c1_description"; "c2_description"; "c3_description";
       "c4_description"; "c5_description"; "c6_description"; "c7_description";
       "c8_description"] ∧
    length (columns df) = 9.
Proof.
  split; [reflexivity|].
  exact (load_missing_file ∅ FILE_PATH "_description" eq_refl).
Defined.

(** C3, as the code has it: when no row carries the key and the column
    exists, the masked assignment succeeds and returns the table as it was;
    no error reports the missing key. *)
Theorem set_cell_absent_key (df : DataFrame) (key col value : string) (i j : nat) :
  get_loc ID (columns df) = Some i →
  get_loc col (columns df) = Some j →
  ¬ Exists (has_id i key) (rows df) →
  set_cell df key col value = Ok df.
Proof.
  intros Hi Hj Hno. unfold set_cell. rewrite Hi, Hj. f_equal.
  destruct df as [cols rs]. simpl in *. f_equal.
  rewrite <- (list_fmap_id rs) at 2. apply list_fmap_ext.
  intros k r Hr. simpl. destruct (decide (has_id i key r)) as [Hid|]; [|done].
  exfalso. apply Hno, Exists_exists. exists r. split; [|done].
  eapply list_elem_of_lookup_2, Hr.
Qed.

Lemma set_cell_absent_key_witness :
  get_loc ID (columns table_v2) = Some 0 ∧
  get_loc "c1_description" (columns table_v2) = Some 1 ∧
  ¬ Exists (has_id 0 "v1") (rows table_v2) ∧
  set_cell table_v2 "v1" "c1_description" "Closed fist" = Ok table_v2.
Proof.
  assert (H : ¬ Exists (has_id 0 "v1") (rows table_v2)) by (apply (bool_decide_unpack _); vm_compute; exact I).
  split; [reflexivity|]. split; [reflexivity|]. split; [exact H|].
  apply (set_cell_absent_key table_v2 "v1" "c1_description" "Closed fist" 0 1);
    [reflexivity | reflexivity | exact H].
Defined.

(** C3, counterexample: on a table without a row [v1] the assignment for
    [v1] does not fail; it returns the unchanged table. *)
Lemma set_cell_absent_key_no_error :
  ¬ Exists (has_id 0 "v1") (rows table_v2) ∧
  set_cell table_v2 "v1" "c1_description" "Closed fist" = Ok table_v2 ∧
  ¬ (∃ e, set_cell table_v2 "v1" "c1_description" "Closed fist" = Raise e).
Proof.
  split; [|split].
  - intros H. apply Exists_exists in H as (r & Hin & Hr).
    apply list_elem_of_singleton in Hin. subst r. discriminate Hr.
  - reflexivity.
  - intros [e H]. discriminate H.
Qed.

Lemma ensure_row_present (df : DataFrame) (key : string) (i : nat) :
  get_loc ID (columns df) = Some i →
  Exists (has_id i key) (rows df) →
  ensure_row df key = Ok df.
Proof.
  intros Hi Hex. unfold ensure_row. rewrite Hi.
  by rewrite bool_decide_eq_true_2.
Qed.

Lemma ensure_row_absent (df : DataFrame) (key : string) (i : nat) :
  get_loc ID (columns df) = Some i →
  ¬ Exists (has_id i key) (rows df) →
  ensure_row df key = Ok (mkDataFrame (columns df) (rows df ++ [new_row df i key])).
Proof.
  intros Hi Hex. unfold ensure_row. rewrite Hi.
  by rewrite bool_decide_eq_false_2.
Qed.

(** C8: on a table whose identifier values are distinct, [ensure_row]
    returns a table whose identifier values are still distinct; the table is
    returned as it was when a row carries the key, otherwise exactly one row
    is appended, with the key as identifier and every slot absent; a second
    call with the same key changes nothing. *)
Theorem ensure_row_unique (df : DataFrame) (key : string) (i : nat) :
  get_loc ID (columns df) = Some i →
  NoDup (cell_at i <$> rows df) →
  ∃ df',
    ensure_row df key = Ok df' ∧
    columns df' = columns df ∧
    NoDup (cell_at i <$> rows df') ∧
    (Exists (has_id i key) (rows df) → df' = df) ∧
    (¬ Exists (has_id i key) (rows df) →
       ∃ r, rows df' = rows df ++ [r] ∧ length r = length (columns df) ∧
            cell_at i r = Some key ∧ ∀ j, j ≠ i → cell_at j r = None) ∧
    ensure_row df' key = Ok df'.
Proof.
  intros Hi Hnd. pose proof (get_loc_lt _ _ _ Hi) as Hlt.
  destruct (decide (Exists (has_id i key) (rows df))) as [Hex|Hno].
  - exists df. rewrite (ensure_row_present df key i Hi Hex).
    repeat split; try done.
  - exists (mkDataFrame (columns df) (rows df ++ [new_row df i key])).
    rewrite (ensure_row_absent df key i Hi Hno). simpl.
    split; [done|]. split; [done|]. split; [|split; [done|split]].
    + rewrite fmap_app. simpl. rewrite new_row_id by done.
      apply NoDup_app. split; [done|]. split; [|apply NoDup_singleton].
      intros c Hc Hc'. apply list_elem_of_singleton in Hc'. subst c.
      by apply not_Exists_has_id in Hno.
    + intros _. exists (new_row df i key). split; [done|]. split.
      * unfold new_row. by rewrite length_insert, length_replicate.
      * split; [by apply new_row_id|]. intros j Hj. by apply new_row_slot.
    + apply ensure_row_present with (i := i); [done|]. simpl.
      apply Exists_app. right. apply Exists_cons. left.
      unfold has_id. by apply new_row_id.
Qed.

Lemma ensure_row_unique_witness :
  get_loc ID (columns table_v2) = Some 0 ∧
  NoDup (cell_at 0 <$> rows table_v2) ∧
  ∃ df',
    ensure_row table_v2 "v1" = Ok df' ∧
    columns df' = columns table_v2 ∧
    NoDup (cell_at 0 <$> rows df') ∧
    (Exists (has_id 0 "v1") (rows table_v2) → df' = table_v2) ∧
    (¬ Exists (has_id 0 "v1") (rows table_v2) →
       ∃ r, rows df' = rows table_v2 ++ [r] ∧ length r = length (columns table_v2) ∧
            cell_at 0 r = Some "v1" ∧ ∀ j, j ≠ 0 → cell_at j r = None) ∧
    ensure_row df' "v1" = Ok df'.
Proof.
  assert (H : NoDup (cell_at 0 <$> rows table_v2))
    by (apply (bool_decide_unpack _); vm_compute; exact I).
  split; [reflexivity|]. split; [exact H|].
  apply (ensure_row_unique table_v2 "v1" 0); [reflexivity | exact H].
Defined.

(** ** PostProcessCleaner *)

Lemma map_cells_compose (f g : cell → cell) (df : DataFrame) :
  map_cells f (map_cells g df) = map_cells (λ c, f (g c)) df.
Proof.
  unfold map_cells. cbn [rows columns]. f_equal.
  rewrite <- list_fmap_compose. apply list_fmap_ext. intros i r _.
  unfold compose. by rewrite <- list_fmap_compose.
Qed.

Lemma map_cells_ext (f g : cell → cell) (df : DataFrame) :
  (∀ r c, r ∈ rows df → c ∈ r → f c = g c) →
  map_cells f df = map_cells g df.
Proof.
  intros H. unfold map_cells. f_equal.
  apply list_fmap_ext. intros i r Hr. apply list_elem_of_lookup_2 in Hr.
  apply list_fmap_ext. intros j c Hc. apply list_elem_of_lookup_2 in Hc.
  by apply (H r).
Qed.

(** What [clean] does to one cell. *)
Lemma clean_cells (df : DataFrame) :
  clean df
  = map_cells (λ c, replace_regex (foldl (λ c term, replace_value term c) c terms)) df.
Proof.
  unfold clean. generalize terms as ts. intros ts. revert df.
  induction ts as [|t ts IH]; intros df; simpl.
  - done.
  - by rewrite IH, map_cells_compose.
Qed.

Lemma replace_terms_None (ts : list string) :
  foldl (λ c term, replace_value term c) None ts = None.
Proof. induction ts; simpl; auto. Qed.

Lemma replace_terms_Some (ts : list string) (s : string) :
  foldl (λ c term, replace_value term c) (Some s) ts
  = if bool_decide (s ∈ ts) then None else Some s.
Proof.
  induction ts as [|t ts IH]; simpl; [done|].
  destruct (String.eqb_spec s t) as [->|Hne].
  - rewrite replace_terms_None. by rewrite bool_decide_eq_true_2 by left.
  - rewrite IH. apply (f_equal (λ b : bool, if b then None else Some s)).
    apply bool_decide_ext. rewrite elem_of_cons.
    split; [auto | intros [?|?]; [congruence | done]].
Qed.

Lemma ends_with_cons (suffix : string) (c : ascii) (s : string) :
  ends_with suffix (String c s) = String.eqb (String c s) suffix || ends_with suffix s.
Proof. done. Qed.

Lemma settled_tail (c : ascii) (s : string) :
  settled (String c s) = true → settled s = true.
Proof.
  unfold settled. rewrite !ends_with_cons, !negb_orb, !andb_true_iff.
  tauto.
Qed.

Lemma sub_final_dot_fixed (s : string) :
  ends_with "." s = false →
  ends_with (String "." (String NL "")) s = false →
  sub_final_dot s = s.
Proof.
  induction s as [|c s IH]; [done|].
  rewrite !ends_with_cons, !orb_false_iff. intros [H1 H2] [H3 H4]. simpl.
  destruct (Ascii.eqb_spec c ".") as [->|Hc]; simpl.
  - destruct (String.eqb_spec s "") as [->|Hs]; [done|].
    destruct (String.eqb_spec s (String NL "")) as [->|Hs']; [done|].
    simpl. by rewrite IH.
  - by rewrite IH.
Qed.

Lemma terms_end_with_dot (s : string) :
  s ∈ terms → ends_with "." s = true.
Proof.
  unfold terms. rewrite !elem_of_cons, elem_of_nil.
  intros H. repeat (destruct H as [H|H]; [subst s; reflexivity|]). done.
Qed.

Lemma sub_final_dot_empty (s : string) :
  sub_final_dot s = "" → s = "" ∨ s = ".".
Proof.
  destruct s as [|c s]; [by left|]. simpl.
  destruct (Ascii.eqb_spec c ".") as [->|Hc]; simpl; [|done].
  destruct (String.eqb_spec s "") as [->|Hs]; [by right|].
  destruct (String.eqb_spec s (String NL "")) as [->|Hs']; done.
Qed.

Lemma sub_final_dot_newline (s : string) :
  sub_final_dot s = String NL "" →
  s = String NL "" ∨ s = String "." (String NL "") ∨ s = String NL ".".
Proof.
  destruct s as [|c s]; [done|]. simpl.
  destruct (Ascii.eqb_spec c ".") as [->|Hc]; simpl.
  - destruct (String.eqb_spec s "") as [->|Hs]; [done|].
    destruct (String.eqb_spec s (String NL "")) as [->|Hs']; [by right; left|].
    simpl. intros [= ?]. 
  - intros [= -> H]. apply sub_final_dot_empty in H as [->| ->]; auto.
Qed.

Lemma sub_final_dot_settles (s : string) :
  settled s = true →
  ends_with "." (sub_final_dot s) = false ∧
  ends_with (String "." (String NL "")) (sub_final_dot s) = false.
Proof.
  induction s as [|c s IH]; [done|].
  intros Hs. pose proof (settled_tail _ _ Hs) as Hs'.
  destruct (IH Hs') as [IH1 IH2]. simpl.
  destruct (Ascii.eqb c "." && (String.eqb s "" || String.eqb s (String NL ""))) eqn:E.
  - apply andb_true_iff in E as [_ E]. apply orb_true_iff in E as [E|E].
    + apply String.eqb_eq in E. subst s. done.
    + apply String.eqb_eq in E. subst s. done.
  - rewrite !ends_with_cons, IH1, IH2, !orb_false_r.
    split.
    + destruct (String.eqb_spec (String c (sub_final_dot s)) ".") as [Heq|]; [|done].
      injection Heq as -> Hsub. exfalso.
      apply sub_final_dot_empty in Hsub as [->| ->]; [done|].
      discriminate Hs.
    + destruct (String.eqb_spec (String c (sub_final_dot s)) (String "." (String NL "")))
        as [Heq|]; [|done].
      injection Heq as -> Hsub. exfalso.
      apply sub_final_dot_newline in Hsub as [->|[->| ->]]; [done| |]; discriminate Hs.
Qed.

(** C2, as the code has it: a second pass of [clean] changes nothing on a
    table whose texts are settled, that is where no text ends with two
    periods (the period is stripped once per pass). *)
Theorem clean_idempotent_settled (df : DataFrame) :
  (∀ r s, r ∈ rows df → Some s ∈ r → settled s = true) →
  clean (clean df) = clean df.
Proof.
  intros Hdf. rewrite !clean_cells, map_cells_compose.
  apply map_cells_ext. intros r c Hr Hc.
  destruct c as [s|]; [|by rewrite !replace_terms_None].
  rewrite replace_terms_Some. case_bool_decide as Hin.
  - by rewrite !replace_terms_None.
  - destruct (sub_final_dot_settles s (Hdf r s Hr Hc)) as [H1 H2].
    unfold replace_regex at 2. cbn [fmap option_fmap option_map].
    rewrite replace_terms_Some. rewrite bool_decide_eq_false_2.
    + unfold replace_regex. cbn [fmap option_fmap option_map].
      by rewrite sub_final_dot_fixed.
    + intros Hin'. apply terms_end_with_dot in Hin'. congruence.
Qed.

Lemma clean_idempotent_settled_witness :
  (∀ r s, r ∈ rows table_raised → Some s ∈ r → settled s = true) ∧
  clean (clean table_raised) = clean table_raised ∧
  rows (clean table_raised) = [[Some "v1"; None; Some "Hand raised"]].
Proof.
  assert (H : ∀ r s, r ∈ rows table_raised → Some s ∈ r → settled s = true).
  { intros r s Hr Hs. apply list_elem_of_singleton in Hr. subst r.
    rewrite !elem_of_cons, elem_of_nil in Hs.
    destruct Hs as [[= ->]|[[= ->]|[[= ->]|[]]]]; reflexivity. }
  split; [exact H|]. split; [|reflexivity].
  apply (clean_idempotent_settled table_raised). exact H.
Defined.

(** C2, counterexample: a description ending with two periods loses one
    period per pass, so the second pass changes the table again. *)
Lemma clean_not_idempotent :
  clean table_dots
  = mkDataFrame ["id_video"; "c1_description"] [[Some "v1"; Some "Hand raised."]] ∧
  clean (clean table_dots)
  = mkDataFrame ["id_video"; "c1_description"] [[Some "v1"; Some "Hand raised"]] ∧
  clean (clean table_dots) ≠ clean table_dots.
Proof.
  split; [reflexivity|]. split; [reflexivity|]. discriminate.
Qed.

(** ** Normalised commands *)

Lemma is_space_letter_or_space (c : ascii) :
  letter_or_space c = true → is_space c = false → is_alpha c = true.
Proof.
  unfold letter_or_space. intros H Hs. apply orb_true_iff in H as [H|H]; [done|].
  apply Ascii.eqb_eq in H. subst c. discriminate Hs.
Qed.

Lemma is_alpha_not_space (c : ascii) : is_alpha c = true → is_space c = false.
Proof.
  unfold is_alpha, is_upper, is_lower, is_space.
  generalize (nat_of_ascii c) as n. intros n H.
  apply orb_true_iff in H. rewrite !andb_true_iff, !Nat.leb_le in H.
  apply orb_false_iff. rewrite !andb_false_iff, !Nat.leb_gt. lia.
Qed.

Lemma nat_of_ascii_lt (c : ascii) : nat_of_ascii c < 256.
Proof. apply nat_ascii_bounded. Qed.

Lemma upper_is_upper (c : ascii) : is_alpha c = true → is_upper (upper c) = true.
Proof.
  unfold is_alpha, upper. intros H. destruct (is_lower c) eqn:E.
  - unfold is_lower in E. unfold is_upper.
    apply andb_true_iff in E as [E1 E2]. apply Nat.leb_le in E1, E2.
    rewrite nat_ascii_embedding by lia.
    apply andb_true_iff. rewrite !Nat.leb_le. lia.
  - by rewrite orb_false_r in H.
Qed.

Lemma lower_not_upper (c : ascii) : is_upper (lower c) = false.
Proof.
  unfold lower. destruct (is_upper c) eqn:E; [|done].
  unfold is_upper in *. apply andb_true_iff in E as [E1 E2].
  apply Nat.leb_le in E1, E2. rewrite nat_ascii_embedding by lia.
  apply andb_false_iff. rewrite !Nat.leb_gt. lia.
Qed.

Lemma lower_letter_or_space (c : ascii) :
  letter_or_space c = true → letter_or_space (lower c) = true.
Proof.
  unfold lower. destruct (is_upper c) eqn:E; [|done]. intros _.
  unfold letter_or_space, is_alpha, is_lower, is_upper in *.
  apply andb_true_iff in E as [E1 E2]. apply Nat.leb_le in E1, E2.
  rewrite nat_ascii_embedding by lia.
  apply orb_true_iff. left. apply orb_true_iff. right.
  apply andb_true_iff. rewrite !Nat.leb_le. lia.
Qed.

Lemma upper_letter_or_space (c : ascii) :
  letter_or_space c = true → letter_or_space (upper c) = true.
Proof.
  unfold upper. destruct (is_lower c) eqn:E; [|done]. intros _.
  unfold letter_or_space, is_alpha, is_lower, is_upper in *.
  apply andb_true_iff in E as [E1 E2]. apply Nat.leb_le in E1, E2.
  rewrite nat_ascii_embedding by lia.
  apply orb_true_iff. left. apply orb_true_iff. left.
  apply andb_true_iff. rewrite !Nat.leb_le. lia.
Qed.

Lemma lower_alpha (c : ascii) : is_alpha c = true → is_alpha (lower c) = true.
Proof.
  unfold lower. destruct (is_upper c) eqn:E; [|done]. intros _.
  unfold is_alpha, is_lower, is_upper in *.
  apply andb_true_iff in E as [E1 E2]. apply Nat.leb_le in E1, E2.
  rewrite nat_ascii_embedding by lia.
  apply orb_true_iff. right. apply andb_true_iff. rewrite !Nat.leb_le. lia.
Qed.

Lemma sub_non_alpha_chars (s : string) :
  all_chars letter_or_space (sub_non_alpha s) = true.
Proof.
  induction s as [|c s IH]; [done|]. simpl.
  destruct (is_alpha c) eqn:E; simpl.
  - unfold letter_or_space at 1. by rewrite E, IH.
  - destruct (is_continuation c); simpl; by rewrite IH.
Qed.

Lemma lstrip_chars (P : ascii → bool) (s : string) :
  all_chars P s = true → all_chars P (lstrip s) = true.
Proof.
  induction s as [|c s IH]; [done|]. simpl. intros H.
  apply andb_true_iff in H as [H1 H2].
  destruct (is_space c); [by apply IH|]. simpl. by rewrite H1, H2.
Qed.

Lemma rstrip_chars (P : ascii → bool) (s : string) :
  all_chars P s = true → all_chars P (rstrip s) = true.
Proof.
  induction s as [|c s IH]; [done|]. simpl. intros H.
  apply andb_true_iff in H as [H1 H2]. specialize (IH H2).
  destruct (rstrip s) as [|x t].
  - destruct (is_space c); simpl; [done|]. by rewrite H1.
  - simpl in *. by rewrite H1, IH.
Qed.

Lemma lstrip_first (s : string) (c : ascii) :
  first_char (lstrip s) = Some c → is_space c = false.
Proof.
  induction s as [|a s IH]; [done|]. simpl.
  destruct (is_space a) eqn:E; [done|]. simpl. by intros [= <-].
Qed.

Lemma rstrip_first (s : string) (c : ascii) :
  first_char (rstrip s) = Some c → first_char s = Some c.
Proof.
  destruct s as [|a s]; [done|]. simpl.
  destruct (rstrip s); [destruct (is_space a)|]; simpl; auto; discriminate.
Qed.

Lemma last_char_None (s : string) : last_char s = None → s = "".
Proof. destruct s as [|a s]; [done|]. simpl. by destruct (last_char s). Qed.

Lemma rstrip_last (s : string) (c : ascii) :
  last_char (rstrip s) = Some c → is_space c = false.
Proof.
  induction s as [|a s IH]; [done|]. simpl.
  destruct (rstrip s) as [|x t] eqn:E.
  - destruct (is_space a) eqn:Ea; [done|]. simpl. by intros [= <-].
  - change (last_char (String a (String x t)))
      with (match last_char (String x t) with None => Some a | Some y => Some y end).
    destruct (last_char (String x t)) as [y|] eqn:El.
    + intros [= <-]. by apply IH.
    + apply last_char_None in El. discriminate El.
Qed.

Lemma lstrip_fixed (s : string) :
  (∀ c, first_char s = Some c → is_space c = false) → lstrip s = s.
Proof.
  destruct s as [|a s]; [done|]. simpl. intros H. by rewrite (H a).
Qed.

Lemma rstrip_fixed (s : string) :
  (∀ c, last_char s = Some c → is_space c = false) → rstrip s = s.
Proof.
  induction s as [|a s IH]; [done|]. simpl. intros H.
  destruct (last_char s) as [y|] eqn:El.
  - rewrite IH by done. destruct s; [done|done].
  - apply last_char_None in El. subst s. simpl. by rewrite (H a).
Qed.

Lemma strip_fixed (s : string) :
  (∀ c, first_char s = Some c → is_space c = false) →
  (∀ c, last_char s = Some c → is_space c = false) →
  strip s = s.
Proof. intros H1 H2. unfold strip. by rewrite lstrip_fixed, rstrip_fixed. Qed.

Lemma map_chars_all (f : ascii → ascii) (P Q : ascii → bool) (s : string) :
  (∀ c, P c = true → Q (f c) = true) →
  all_chars P s = true → all_chars Q (map_chars f s) = true.
Proof.
  intros Hf. induction s as [|c s IH]; [done|]. simpl. intros H.
  apply andb_true_iff in H as [H1 H2]. by rewrite (Hf c), IH.
Qed.

Lemma map_chars_last (f : ascii → ascii) (s : string) :
  last_char (map_chars f s) = f <$> last_char s.
Proof.
  induction s as [|c s IH]; [done|]. simpl. rewrite IH.
  by destruct (last_char s).
Qed.

Lemma all_chars_last (P : ascii → bool) (s : string) (c : ascii) :
  all_chars P s = true → last_char s = Some c → P c = true.
Proof.
  induction s as [|a s IH]; [done|]. simpl. intros H.
  apply andb_true_iff in H as [H1 H2].
  destruct (last_char s) as [y|]; intros [= <-]; auto.
Qed.

Lemma strip_shape (s : string) :
  all_chars letter_or_space s = true →
  all_chars letter_or_space (strip s) = true ∧
  (∀ c, first_char (strip s) = Some c → is_alpha c = true) ∧
  (∀ c, last_char (strip s) = Some c → is_alpha c = true).
Proof.
  intros H. unfold strip.
  assert (Hall : all_chars letter_or_space (rstrip (lstrip s)) = true)
    by by apply rstrip_chars, lstrip_chars.
  split; [done|]. split; intros c Hc.
  - apply is_space_letter_or_space.
    + destruct (rstrip (lstrip s)) as [|a t]; [done|]. simpl in Hc, Hall.
      injection Hc as ->. by apply andb_true_iff in Hall as [? _].
    + eapply lstrip_first, rstrip_first, Hc.
  - apply is_space_letter_or_space.
    + by eapply all_chars_last.
    + eapply rstrip_last, Hc.
Qed.

Lemma capitalize_shape (s : string) :
  all_chars letter_or_space s = true →
  (∀ c, first_char s = Some c → is_alpha c = true) →
  (∀ c, last_char s = Some c → is_alpha c = true) →
  all_chars letter_or_space (capitalize s) = true ∧
  (∀ c, first_char (capitalize s) = Some c → is_alpha c = true) ∧
  (∀ c, last_char (capitalize s) = Some c → is_alpha c = true) ∧
  (∀ c t, capitalize s = String c t →
     is_upper c = true ∧ all_chars (λ x, negb (is_upper x)) t = true).
Proof.
  destruct s as [|a s]; [done|]. simpl. intros Hall Hfirst Hlast.
  apply andb_true_iff in Hall as [Ha Hs].
  pose proof (Hfirst a eq_refl) as Halpha.
  pose proof (upper_is_upper a Halpha) as Hup.
  split; [|split; [|split]].
  - rewrite (upper_letter_or_space a Ha). simpl.
    by apply (map_chars_all lower letter_or_space), Hs; apply lower_letter_or_space.
  - intros c [= <-]. unfold is_alpha. by rewrite Hup.
  - intros c. rewrite map_chars_last. destruct (last_char s) as [y|]; simpl.
    + intros [= <-]. by apply lower_alpha, Hlast.
    + intros [= <-]. unfold is_alpha. by rewrite Hup.
  - intros c t [= <- <-]. split; [done|].
    apply (map_chars_all lower (λ _, true)); [|by clear; induction s].
    intros x _. by rewrite lower_not_upper.
Qed.

(** C10: the value stored into a command cell is made of ASCII letters and
    spaces only, neither starts nor ends with white space, and when it is not
    empty starts with an upper-case letter and has no other upper-case
    letter.  It is the normalised answer: the final [strip] changes
    nothing. *)
Theorem command_value_normalized (response_content : string) :
  all_chars letter_or_space (command_value response_content) = true ∧
  (∀ c, first_char (command_value response_content) = Some c → is_space c = false) ∧
  (∀ c, last_char (command_value response_content) = Some c → is_space c = false) ∧
  (∀ c t, command_value response_content = String c t →
     is_upper c = true ∧ all_chars (λ x, negb (is_upper x)) t = true) ∧
  command_value response_content = normalize response_content.
Proof.
  destruct (strip_shape _ (sub_non_alpha_chars response_content)) as (H1 & H2 & H3).
  destruct (capitalize_shape _ H1 H2 H3) as (K1 & K2 & K3 & K4).
  assert (Hfix : command_value response_content = normalize response_content).
  { unfold command_value. apply strip_fixed; unfold normalize; intros c Hc.
    - by apply is_alpha_not_space, K2.
    - by apply is_alpha_not_space, K3. }
  rewrite Hfix. unfold normalize. repeat split.
  - done.
  - intros c Hc. by apply is_alpha_not_space, K2.
  - intros c Hc. by apply is_alpha_not_space, K3.
  - by eapply K4.
  - by eapply K4.
Qed.

(** ** Saving and loading *)









(** ** The order of Python strings *)

Definition str_le (s1 s2 : string) : Prop := String.leb s1 s2 = true.

Lemma ascii_compare_refl (a : ascii) : Ascii.compare a a = Eq.
Proof. unfold Ascii.compare. apply N.compare_refl. Qed.

Lemma ascii_compare_lt_trans (a b c : ascii) :
  Ascii.compare a b = Lt → Ascii.compare b c = Lt → Ascii.compare a c = Lt.
Proof.
  unfold Ascii.compare. rewrite !N.compare_lt_iff. apply N.lt_trans.
Qed.

Lemma string_leb_trans (s1 s2 s3 : string) :
  str_le s1 s2 → str_le s2 s3 → str_le s1 s3.
Proof.
  unfold str_le, String.leb. revert s2 s3.
  induction s1 as [|a s1 IH]; intros [|b s2] [|c s3]; simpl; try done.
  destruct (Ascii.compare a b) eqn:Eab; [| |done].
  - apply Ascii.compare_eq_iff in Eab. subst b.
    destruct (Ascii.compare a c) eqn:Eac; [apply IH|done|done].
  - intros _. destruct (Ascii.compare b c) eqn:Ebc; [| |done].
    + apply Ascii.compare_eq_iff in Ebc. subst c. by rewrite Eab.
    + by rewrite (ascii_compare_lt_trans a b c).
Qed.

Global Instance str_le_trans : Transitive str_le.
Proof. intros s1 s2 s3. apply string_leb_trans. Qed.

Lemma is_sorted_Sorted (l : list string) :
  is_sorted l = true ↔ Sorted str_le l.
Proof.
  induction l as [|x l IH]; [by split; [constructor|]|].
  destruct l as [|y l].
  - split; [by repeat constructor|done].
  - change (is_sorted (x :: y :: l)) with (String.leb x y && is_sorted (y :: l)).
    rewrite andb_true_iff, IH. split.
    + intros [Hxy Hs]. constructor; [done|]. by constructor.
    + intros H. inversion H as [|? ? Hs Hhd]; subst.
      inversion Hhd; subst. done.
Qed.

Lemma isort_Sorted (l : list string) :
  Sorted str_le l → isort String.leb l = l.
Proof.
  induction 1 as [|x l Hs IH Hhd]; [done|].
  unfold isort in *. simpl. rewrite IH.
  destruct Hhd as [|y l' Hxy]; [done|]. simpl.
  unfold str_le in Hxy. by rewrite Hxy.
Qed.

Lemma sublist_StronglySorted {A : Type} (R : relation A) (l1 l2 : list A) :
  l1 `sublist_of` l2 → StronglySorted R l2 → StronglySorted R l1.
Proof.
  induction 1 as [|x l1 l2 Hsub IH|x l1 l2 Hsub IH]; intros Hs.
  - done.
  - apply StronglySorted_inv in Hs as [Hs Hall]. constructor; [by apply IH|].
    rewrite Forall_forall in Hall |- *. intros y Hy. apply Hall.
    by eapply elem_of_sublist.
  - apply StronglySorted_inv in Hs as [Hs _]. by apply IH.
Qed.

(** ** The sampler *)

Lemma increasing_sublist_seq (idxs : list nat) (a n : nat) :
  StronglySorted lt idxs →
  Forall (λ i, a ≤ i < a + n) idxs →
  idxs `sublist_of` seq a n.
Proof.
  revert a idxs. induction n as [|n IH]; intros a idxs Hs Hall.
  - destruct idxs as [|i idxs]; [done|].
    apply Forall_cons in Hall as [? _]. lia.
  - destruct idxs as [|i idxs]; [apply sublist_nil_l|].
    simpl. apply StronglySorted_inv in Hs as [Hs Hlt].
    apply Forall_cons in Hall as [Hi Hall].
    destruct (decide (i = a)) as [->|Hne].
    + apply sublist_skip, IH; [done|].
      apply Forall_forall. intros j Hj.
      rewrite Forall_forall in Hall, Hlt.
      specialize (Hall j Hj). specialize (Hlt j Hj). lia.
    + apply sublist_cons, IH; [by constructor|].
      apply Forall_cons. split; [lia|].
      apply Forall_forall. intros j Hj.
      rewrite Forall_forall in Hall, Hlt.
      specialize (Hall j Hj). specialize (Hlt j Hj). lia.
Qed.

Lemma lookup_seq_all (l : list string) :
  (λ i, default "" (l !! i)) <$> seq 0 (length l) = l.
Proof.
  apply list_eq. intros i. rewrite list_lookup_fmap.
  destruct (decide (i < length l)) as [Hlt|Hge].
  - rewrite lookup_seq_lt by done. simpl.
    destruct (lookup_lt_is_Some_2 l i Hlt) as [x Hx]. by rewrite Hx.
  - rewrite lookup_seq_ge by lia. simpl. symmetry. apply lookup_ge_None. lia.
Qed.

Lemma picks_sublist (l : list string) (idxs : list nat) :
  StronglySorted lt idxs →
  Forall (λ i, i < length l) idxs →
  (λ i, default "" (l !! i)) <$> idxs `sublist_of` l.
Proof.
  intros Hs Hall.
  assert (H : idxs `sublist_of` seq 0 (length l)).
  { apply increasing_sublist_seq; [done|].
    eapply Forall_impl; [exact Hall|]. simpl. lia. }
  apply (fmap_sublist (λ i, default "" (l !! i))) in H.
  by rewrite lookup_seq_all in H.
Qed.

Lemma StronglySorted_fmap_seq (f : nat → nat) (a k : nat) :
  (∀ i j, i < j → f i < f j) → StronglySorted lt (f <$> seq a k).
Proof.
  intros Hf. revert a. induction k as [|k IH]; intros a; simpl; constructor.
  - apply IH.
  - apply Forall_fmap, Forall_forall. intros j Hj.
    apply elem_of_seq in Hj. simpl. apply Hf. lia.
Qed.

Lemma sample_index_step (m i j : nat) :
  (49 ≤ m)%nat → (i < j)%nat → (m * i / 49 < m * j / 49)%nat.
Proof.
  intros Hm Hij.
  assert (H : (m * i / 49 + 1 ≤ m * j / 49)%nat); [|lia].
  replace (m * i / 49 + 1)%nat with ((m * i + 1 * 49) / 49)%nat
    by (rewrite Nat.div_add by lia; lia).
  apply Nat.Div0.div_le_mono. nia.
Qed.

Lemma sample_indices_increasing (n : nat) :
  (50 ≤ n)%nat → StronglySorted lt (sample_indices n).
Proof.
  intros Hn. unfold sample_indices. apply StronglySorted_fmap_seq.
  intros i j Hij. unfold SAMPLE_SIZE. change (50 - 1)%nat with 49%nat.
  apply sample_index_step; lia.
Qed.

Lemma sample_indices_lt (n : nat) :
  (1 ≤ n)%nat → Forall (λ i, i < n) (sample_indices n).
Proof.
  intros Hn. unfold sample_indices. apply Forall_fmap, Forall_forall.
  intros i Hi. apply elem_of_seq in Hi. unfold SAMPLE_SIZE in *.
  change (50 - 1)%nat with 49%nat. cbn beta.
  assert (((n - 1) * i / 49 ≤ (n - 1) * 49 / 49)%nat)
    by (apply Nat.Div0.div_le_mono; nia).
  rewrite Nat.div_mul in H by lia. unfold compose. lia.
Qed.

Lemma sample_indices_length (n : nat) : length (sample_indices n) = 50.
Proof. unfold sample_indices. by rewrite length_fmap, length_seq. Qed.

Lemma sample_indices_head (n : nat) : head (sample_indices n) = Some 0.
Proof.
  unfold sample_indices. change (seq 0 SAMPLE_SIZE) with (0 :: seq 1 49).
  rewrite fmap_cons. cbn [head]. by rewrite Nat.mul_0_r.
Qed.

Lemma sample_indices_last (n : nat) : last (sample_indices n) = Some (n - 1).
Proof.
  unfold sample_indices, SAMPLE_SIZE. change (50 - 1)%nat with 49%nat.
  change 50%nat with (S 49). rewrite seq_S, fmap_app.
  cbn [fmap list_fmap]. rewrite last_snoc. f_equal.
  change (0 + 49)%nat with 49%nat. by rewrite Nat.div_mul.
Qed.

(** The sample of a sorted list of more than 50 names: the names at the 50
    increasing positions [sample_indices], the sort changing nothing. *)
Lemma sample_large (filenames : list string) :
  (50 < length filenames)%nat →
  is_sorted filenames = true →
  sample filenames
  = (λ i, default "" (filenames !! i)) <$> sample_indices (length filenames) ∧
  sample filenames `sublist_of` filenames.
Proof.
  intros Hlen Hsorted. unfold sample. rewrite decide_True by done.
  assert (Hsub : (λ i, default "" (filenames !! i)) <$> sample_indices (length filenames)
                 `sublist_of` filenames).
  { apply picks_sublist; [apply sample_indices_increasing | apply sample_indices_lt]; lia. }
  assert (Hfix : sorted ((λ i, default "" (filenames !! i))
                           <$> sample_indices (length filenames))
                 = (λ i, default "" (filenames !! i)) <$> sample_indices (length filenames)).
  { apply isort_Sorted, StronglySorted_Sorted.
    eapply sublist_StronglySorted; [exact Hsub|].
    apply Sorted_StronglySorted; [apply _|]. by apply is_sorted_Sorted. }
  rewrite Hfix. done.
Qed.

(** C5: from a sorted list of 120 names the sampler returns 50 names, those
    at 50 increasing (hence distinct) positions of the list, the first one
    (position 0) and the last one (position 119) among them, in their
    original order; a list of at most 50 names is returned as it is. *)
Theorem sample_120 (filenames : list string) :
  (length filenames = 120 → is_sorted filenames = true →
     length (sample filenames) = 50 ∧
     sample filenames `sublist_of` filenames ∧
     head (sample filenames) = filenames !! 0 ∧
     last (sample filenames) = filenames !! 119 ∧
     sample filenames = (λ i, default "" (filenames !! i)) <$> sample_indices 120 ∧
     StronglySorted lt (sample_indices 120) ∧
     (NoDup filenames → NoDup (sample filenames))) ∧
  ((length filenames ≤ 50)%nat → sample filenames = filenames).
Proof.
  split.
  - intros Hlen Hsorted.
    destruct (sample_large filenames) as [Heq Hsub]; [lia | done |].
    rewrite Hlen in Heq.
    split; [by rewrite Heq, length_fmap, sample_indices_length|].
    split; [done|].
    split; [|split; [|split; [done|split]]].
    + rewrite Heq, head_lookup, list_lookup_fmap, <- head_lookup.
      rewrite sample_indices_head. simpl.
      destruct (lookup_lt_is_Some_2 filenames 0) as [x Hx]; [lia|]. by rewrite Hx.
    + rewrite Heq, fmap_last, sample_indices_last. simpl.
      destruct (lookup_lt_is_Some_2 filenames 119) as [x Hx]; [lia|]. by rewrite Hx.
    + apply sample_indices_increasing. lia.
    + intros Hnd. by eapply sublist_NoDup.
  - intros Hlen. unfold sample. by rewrite decide_False by lia.
Qed.

Lemma sample_120_witness :
  length (frames 120) = 120 ∧ is_sorted (frames 120) = true ∧
  length (sample (frames 120)) = 50 ∧
  head (sample (frames 120)) = Some "frame_000.jpg" ∧
  last (sample (frames 120)) = Some "frame_119.jpg" ∧
  (length (frames 3) ≤ 50)%nat ∧ sample (frames 3) = frames 3.
Proof.
  destruct (sample_120 (frames 120)) as [H _].
  destruct (H eq_refl eq_refl) as (H1 & _ & H3 & H4 & _).
  destruct (sample_120 (frames 3)) as [_ K].
  split; [reflexivity|]. split; [reflexivity|]. split; [exact H1|].
  split; [exact H3|]. split; [exact H4|].
  split; [vm_compute; lia | apply K; vm_compute; lia].
Defined.

(** ** The loop body, case by case *)

Lemma from_end_1_of_2 (l : list string) (k : string) :
  from_end 2 l = Ok k → ∃ d, from_end 1 l = Ok d.
Proof.
  unfold from_end. case_decide as H2; [|done]. intros _.
  rewrite decide_True by lia.
  destruct (lookup_lt_is_Some_2 l (length l - 1)) as [d Hd]; [lia|].
  exists d. by rewrite Hd.
Qed.

Lemma client_error_not_runtime (env : environ) (e : exn) :
  get_azure_openai_client env = Raise e → ∀ msg, e ≠ RuntimeError msg.
Proof.
  unfold get_azure_openai_client.
  destruct (AZURE_OPENAI_API_KEY env); [destruct (AZURE_OPENAI_ENDPOINT env)|];
    intros [= <-] msg; discriminate.
Qed.

Lemma needs_work_locs (df : DataFrame) (key col : string) (b : bool) :
  needs_work df key col = Ok b →
  ∃ i j, get_loc ID (columns df) = Some i ∧ get_loc col (columns df) = Some j ∧
         b = forallb isna (cell_at j <$> filter (has_id i key) (rows df)).
Proof.
  unfold needs_work, selected.
  destruct (get_loc ID (columns df)) as [i|]; [|done].
  destruct (get_loc col (columns df)) as [j|]; [|done].
  intros [= <-]. by exists i, j.
Qed.

Lemma set_cell_located (df : DataFrame) (key col value : string) (i j : nat) :
  get_loc ID (columns df) = Some i →
  get_loc col (columns df) = Some j →
  set_cell df key col value
  = Ok (mkDataFrame (columns df)
          ((λ r : list cell, if decide (has_id i key r) then <[j := Some value]> r else r)
             <$> rows df)).
Proof. intros Hi Hj. unfold set_cell. by rewrite Hi, Hj. Qed.

(** Two results of the same computation are the same result. *)
Ltac same_result :=
  repeat match goal with
         | H1 : ?x = Ok _, H2 : ?x = Raise _ |- _ =>
             exfalso; rewrite H1 in H2; discriminate H2
         | H1 : ?x = Ok ?a, H2 : ?x = Ok ?b |- _ =>
             first [ is_var b; assert (b = a) by congruence; subst b; clear H2
                   | is_var a; assert (a = b) by congruence; subst a; clear H1
                   | exfalso; rewrite H1 in H2; discriminate H2 ]
         end.

(** The equation of a finished pass, turned into its two components. *)
Ltac returned :=
  let H := fresh "Hret" in
  intros H; inversion H; subst; clear H.

Lemma process_folder_sound (c : loop_config) (w : world) (folder : string) (st : state)
    (r : result unit) (st' : state) :
  process_folder c w folder st = (r, st') → folder_step c w folder st r st'.
Proof.
  unfold process_folder.
  destruct (sorted (glob w folder)) as [|f fs] eqn:Eglob.
  { returned. by constructor. }
  assert (Hne : sorted (glob w folder) ≠ []) by by rewrite Eglob.
  rewrite <- Eglob. clear f fs Eglob.
  cbv beta delta [bind lift assign_df print read_df try describe_hand_gesture
                  request ret raise save].
  destruct (from_end 2 (split "/" folder)) as [k|e] eqn:Ek.
  2:{ returned. by apply step_bad_path. }
  destruct (from_end_1_of_2 _ _ Ek) as [d Ed]. rewrite Ed.
  destruct (ensure_row (st_df st) k) as [df1|e] eqn:Erow.
  2:{ returned. by eapply step_no_id_column. }
  cbn [st_df st_files st_stdout st_requests].
  change (d +:+ "_description") with (column_of d).
  destruct (needs_work df1 k (column_of d)) as [[|]|e] eqn:Ework.
  3:{ returned. by eapply step_no_column. }
  2:{ returned. by eapply step_filled. }
  destruct (get_azure_openai_client (environment w)) as [client|e] eqn:Eclient.
  2:{ pose proof (client_error_not_runtime _ _ Eclient) as Hnot.
      destruct e; try (returned; by eapply step_unconfigured).
      by destruct (Hnot msg). }
  cbn [st_df st_files st_stdout st_requests].
  destruct (chat w client (payload c (sorted (glob w folder)))) as [result|e] eqn:Echat.
  - destruct (needs_work_locs _ _ _ _ Ework) as (i & j & Hi & Hj & _).
    cbn [st_df st_files st_stdout st_requests].
    rewrite (set_cell_located df1 k (column_of d) result i j Hi Hj).
    returned.
    eapply step_stored; try done. by apply set_cell_located.
  - destruct e; try (returned; by eapply step_failed).
    returned. by eapply step_rejected.
Qed.

Lemma process_folder_complete (c : loop_config) (w : world) (folder : string) (st : state)
    (r : result unit) (st' : state) :
  folder_step c w folder st r st' → process_folder c w folder st = (r, st').
Proof.
  intros Hstep. unfold process_folder.
  destruct (sorted (glob w folder)) as [|f fs] eqn:Eglob.
  { destruct Hstep; done. }
  assert (Hne : sorted (glob w folder) ≠ []) by by rewrite Eglob.
  rewrite <- !Eglob in *. clear f fs Eglob.
  cbv beta delta [bind lift assign_df print read_df try describe_hand_gesture
                  request ret raise save].
  destruct Hstep; unfold column_of in *;
    repeat match goal with
           | H : sorted _ = [] |- _ => destruct (Hne H)
           | H : ?x = Ok _ |- context [?x] => rewrite H
           | H : ?x = Raise _ |- context [?x] => rewrite H
           | |- _ => progress cbn [st_df st_files st_stdout st_requests]
           end;
    try done.
  - match goal with
    | H : get_azure_openai_client _ = Raise _ |- _ =>
        pose proof (client_error_not_runtime _ _ H) as Hnot
    end.
    destruct e; try done. by destruct (Hnot msg).
  - match goal with
    | H : ∀ msg, _ ≠ RuntimeError msg |- _ => rename H into Hnot
    end.
    destruct e; try done. by destruct (Hnot msg).
Qed.

(** ** What the table operations do to a selection *)

Lemma filter_fmap_stable {A : Type} (P : A → Prop) `{∀ x, Decision (P x)}
    (f : A → A) (l : list A) :
  (∀ x, P (f x) ↔ P x) → filter P (f <$> l) = f <$> filter P l.
Proof.
  intros Hf. induction l as [|x l IH]; [done|].
  rewrite fmap_cons, !filter_cons.
  destruct (decide (P x)) as [Hx|Hx].
  - rewrite decide_True by by apply Hf. by rewrite fmap_cons, IH.
  - rewrite decide_False by by rewrite Hf. done.
Qed.

Lemma string_length_app (s1 s2 : string) :
  String.length (s1 +:+ s2) = String.length s1 + String.length s2.
Proof. induction s1 as [|c s1 IH]; simpl; [done|]. by rewrite IH. Qed.

Lemma column_of_not_ID (d : string) : column_of d ≠ ID.
Proof.
  unfold column_of, ID. intros H.
  apply (f_equal String.length) in H. rewrite string_length_app in H.
  simpl in H. lia.
Qed.

Lemma get_loc_ne (a b : string) (cols : list string) (i j : nat) :
  get_loc a cols = Some i → get_loc b cols = Some j → a ≠ b → i ≠ j.
Proof. intros Ha Hb Hab ->. apply Hab. by eapply get_loc_inj. Qed.

Lemma selected_located (df : DataFrame) (key col : string) (i j : nat) :
  get_loc ID (columns df) = Some i →
  get_loc col (columns df) = Some j →
  selected df key col = Ok (cell_at j <$> filter (has_id i key) (rows df)).
Proof. intros Hi Hj. unfold selected. by rewrite Hi, Hj. Qed.

Lemma selected_locs (df : DataFrame) (key col : string) (cs : list cell) :
  selected df key col = Ok cs →
  ∃ i j, get_loc ID (columns df) = Some i ∧ get_loc col (columns df) = Some j ∧
         cs = cell_at j <$> filter (has_id i key) (rows df).
Proof.
  unfold selected.
  destruct (get_loc ID (columns df)) as [i|]; [|done].
  destruct (get_loc col (columns df)) as [j|]; [|done].
  intros [= <-]. by exists i, j.
Qed.

Lemma filter_has_id_nil (i : nat) (key : string) (rs : list (list cell)) :
  filter (has_id i key) rs = [] ↔ ¬ Exists (has_id i key) rs.
Proof.
  rewrite Exists_exists. split.
  - intros Hnil (r & Hin & Hr).
    assert (r ∈ filter (has_id i key) rs) as Hf by by apply list_elem_of_filter.
    rewrite Hnil in Hf. by apply elem_of_nil in Hf.
  - intros Hno. destruct (filter (has_id i key) rs) as [|r l] eqn:E; [done|].
    exfalso. apply Hno. exists r.
    assert (r ∈ filter (has_id i key) rs) as Hf by (rewrite E; left).
    apply list_elem_of_filter in Hf as [? ?]. done.
Qed.

Lemma ensure_row_columns (df df1 : DataFrame) (k : string) :
  ensure_row df k = Ok df1 → columns df1 = columns df.
Proof.
  unfold ensure_row. destruct (get_loc ID (columns df)); [|done].
  case_bool_decide; by intros [= <-].
Qed.

(** [ensure_row] leaves every selection that has a row as it is. *)
Lemma ensure_row_selected (df df1 : DataFrame) (k key col : string) (cs : list cell) :
  ensure_row df k = Ok df1 →
  selected df key col = Ok cs →
  key ≠ k ∨ cs ≠ [] →
  selected df1 key col = Ok cs.
Proof.
  intros Hrow Hsel Hor.
  destruct (selected_locs _ _ _ _ Hsel) as (i & j & Hi & Hj & ->).
  pose proof (get_loc_lt _ _ _ Hi) as Hlt.
  unfold ensure_row in Hrow. rewrite Hi in Hrow.
  case_bool_decide as Hex; injection Hrow as <-; [done|].
  rewrite (selected_located _ key col i j) by done. cbn [rows]. f_equal.
  rewrite filter_app, fmap_app.
  assert (Hnew : filter (has_id i key) [new_row df i k] = []).
  { apply filter_has_id_nil. intros Hn. apply Exists_cons in Hn as [Hn|Hn].
    - unfold has_id in Hn. rewrite new_row_id in Hn by done.
      injection Hn as ->. destruct Hor as [Hne|Hne]; [done|].
      apply Hne. apply filter_has_id_nil in Hex. by rewrite Hex.
    - by apply Exists_nil in Hn. }
  rewrite Hnew. simpl. by rewrite app_nil_r.
Qed.


Lemma set_cell_columns (df df2 : DataFrame) (k col v : string) (b : bool) :
  needs_work df k col = Ok b →
  set_cell df k col v = Ok df2 → columns df2 = columns df.
Proof.
  intros Hw. destruct (needs_work_locs _ _ _ _ Hw) as (i & j & Hi & Hj & _).
  rewrite (set_cell_located df k col v i j Hi Hj). by intros [= <-].
Qed.

Lemma has_id_insert (i j : nat) (key : string) (c : cell) (r : list cell) :
  i ≠ j → has_id i key (<[j := c]> r) ↔ has_id i key r.
Proof. intros Hij. unfold has_id. by rewrite cell_at_insert_ne. Qed.

(** [set_cell] on a slot column leaves every other selection as it is. *)
Lemma set_cell_selected_other (df df2 : DataFrame) (k col v key col' : string)
    (cs : list cell) (j : nat) :
  set_cell df k col v = Ok df2 →
  col ≠ ID →
  get_loc col (columns df) = Some j →
  selected df key col' = Ok cs →
  key ≠ k ∨ col' ≠ col →
  selected df2 key col' = Ok cs.
Proof.
  intros Hset HcolID Hj Hsel Hor.
  destruct (selected_locs _ _ _ _ Hsel) as (i & j' & Hi & Hj' & ->).
  assert (Hij : i ≠ j) by (eapply get_loc_ne; done).
  rewrite (set_cell_located df k col v i j Hi Hj) in Hset. injection Hset as <-.
  rewrite (selected_located _ key col' i j') by done. cbn [rows]. f_equal.
  rewrite filter_fmap_stable.
  2:{ intros r. case_decide; [by apply has_id_insert|done]. }
  rewrite <- list_fmap_compose. apply list_fmap_ext. intros n r Hr.
  apply list_elem_of_lookup_2, list_elem_of_filter in Hr as [Hr _].
  unfold compose. case_decide as Hk; [|done].
  destruct Hor as [Hne|Hne].
  - unfold has_id in Hr, Hk. congruence.
  - apply cell_at_insert_ne. intros ->. apply Hne. by eapply get_loc_inj.
Qed.

(** [set_cell] fills the selection it is given. *)
Lemma set_cell_selected_same (df df2 : DataFrame) (k col v : string) (cs : list cell) :
  set_cell df k col v = Ok df2 →
  col ≠ ID →
  Forall (λ r : list cell, length r = length (columns df)) (rows df) →
  selected df k col = Ok cs →
  selected df2 k col = Ok (replicate (length cs) (Some v)).
Proof.
  intros Hset HcolID Hrect Hsel.
  destruct (selected_locs _ _ _ _ Hsel) as (i & j & Hi & Hj & ->).
  assert (Hij : i ≠ j) by (eapply get_loc_ne; done).
  pose proof (get_loc_lt _ _ _ Hj) as Hlt.
  rewrite (set_cell_located df k col v i j Hi Hj) in Hset. injection Hset as <-.
  rewrite (selected_located _ k col i j) by done. cbn [rows]. f_equal.
  rewrite filter_fmap_stable.
  2:{ intros r. case_decide; [by apply has_id_insert|done]. }
  rewrite <- list_fmap_compose, length_fmap.
  assert (Hall : Forall (λ r, has_id i k r ∧ length r = length (columns df))
                   (filter (has_id i k) (rows df))).
  { apply Forall_forall. intros r Hr. apply list_elem_of_filter in Hr as [Hk Hr].
    split; [done|]. by apply (proj1 (Forall_forall _ _) Hrect). }
  clear Hsel. induction Hall as [|r rs [Hk Hlen] _ IH]; [done|].
  rewrite fmap_cons. simpl. f_equal; [|done].
  rewrite decide_True by done. apply cell_at_insert_eq. lia.
Qed.

Lemma insort_Permutation {A : Type} (le : A → A → bool) (x : A) (l : list A) :
  insort le x l ≡ₚ x :: l.
Proof.
  induction l as [|y l IH]; simpl; [done|].
  destruct (le x y); [done|]. rewrite IH. apply Permutation_swap.
Qed.

Lemma isort_Permutation {A : Type} (le : A → A → bool) (l : list A) :
  isort le l ≡ₚ l.
Proof.
  unfold isort. induction l as [|x l IH]; simpl; [done|].
  by rewrite insort_Permutation, IH.
Qed.

Lemma sort_values_columns (df df' : DataFrame) :
  sort_values df = Ok df' → columns df' = columns df.
Proof.
  unfold sort_values. destruct (get_loc ID (columns df)); [|done].
  by intros [= <-].
Qed.

Lemma sort_values_rows (df df' : DataFrame) :
  sort_values df = Ok df' → rows df' ≡ₚ rows df.
Proof.
  unfold sort_values. destruct (get_loc ID (columns df)); [|done].
  intros [= <-]. apply isort_Permutation.
Qed.

(** Sorting permutes every selection. *)
Lemma sort_values_selected (df df' : DataFrame) (key col : string) (cs : list cell) :
  sort_values df = Ok df' →
  selected df key col = Ok cs →
  ∃ cs', selected df' key col = Ok cs' ∧ cs' ≡ₚ cs.
Proof.
  intros Hsort Hsel.
  destruct (selected_locs _ _ _ _ Hsel) as (i & j & Hi & Hj & ->).
  pose proof (sort_values_columns _ _ Hsort) as Hcols.
  pose proof (sort_values_rows _ _ Hsort) as Hrows.
  eexists. split.
  - apply selected_located; by rewrite Hcols.
  - by rewrite Hrows.
Qed.

(** ** Filled cells are kept *)

Lemma kept_refl (df : DataFrame) : kept df df.
Proof. split; [done|]. intros key col cs v Hsel _. by exists cs. Qed.

Lemma kept_trans (df1 df2 df3 : DataFrame) :
  kept df1 df2 → kept df2 df3 → kept df1 df3.
Proof.
  intros [Hc12 H12] [Hc23 H23]. split; [congruence|].
  intros key col cs v Hsel Hv.
  destruct (H12 key col cs v Hsel Hv) as (cs2 & Hsel2 & Hp2).
  assert (Hv2 : Some v ∈ cs2) by by rewrite Hp2.
  destruct (H23 key col cs2 v Hsel2 Hv2) as (cs3 & Hsel3 & Hp3).
  exists cs3. split; [done|]. by rewrite Hp3.
Qed.

Lemma ensure_row_kept (df df1 : DataFrame) (k : string) :
  ensure_row df k = Ok df1 → kept df df1.
Proof.
  intros Hrow. split; [by eapply ensure_row_columns|].
  intros key col cs v Hsel Hv. exists cs. split; [|done].
  eapply ensure_row_selected; [done..|].
  right. intros ->. by apply elem_of_nil in Hv.
Qed.

Lemma forallb_isna_absent (cs : list cell) (v : string) :
  forallb isna cs = true → Some v ∉ cs.
Proof.
  intros Hall Hin. apply list_elem_of_In in Hin.
  by apply (proj1 (forallb_forall _ _) Hall) in Hin.
Qed.

(** The guarded assignment of the loop keeps every filled selection. *)
Lemma guarded_set_cell_kept (df df2 : DataFrame) (k d result : string) :
  needs_work df k (column_of d) = Ok true →
  set_cell df k (column_of d) result = Ok df2 →
  kept df df2.
Proof.
  intros Hwork Hset. split; [by eapply set_cell_columns|].
  intros key col cs v Hsel Hv. exists cs. split; [|done].
  destruct (needs_work_locs _ _ _ _ Hwork) as (i & j & Hi & Hj & Hall).
  eapply set_cell_selected_other; [done | apply column_of_not_ID | done..|].
  destruct (decide (key = k)) as [->|Hne]; [|by left]. right. intros ->.
  rewrite (selected_located _ _ _ i j Hi Hj) in Hsel. injection Hsel as <-.
  by eapply forallb_isna_absent.
Qed.

Lemma folder_step_kept (c : loop_config) (w : world) (folder : string) (st : state)
    (r : result unit) (st' : state) :
  folder_step c w folder st r st' → kept (st_df st) (st_df st').
Proof.
  destruct 1; cbn [st_df entered asked printed stored];
    try apply kept_refl; try (by eapply ensure_row_kept).
  eapply kept_trans; [by eapply ensure_row_kept|].
  by eapply guarded_set_cell_kept.
Qed.

(** A property of the state that every pass of a loop body keeps, whatever
    the pass returns, holds when the loop stops. *)
Lemma for_each_invariant {A : Type} (P : state → Prop) (body : A → M unit)
    (l : list A) :
  (∀ x st r st', x ∈ l → P st → body x st = (r, st') → P st') →
  ∀ st r st', P st → for_each l body st = (r, st') → P st'.
Proof.
  induction l as [|x l IH]; intros Hbody st r st' HP; simpl.
  - unfold ret. by intros [= <- <-].
  - unfold bind. destruct (body x st) as [[[]|e] st1] eqn:E.
    + apply IH; [|by eapply Hbody; [left|..]].
      intros y ? ? ? Hy. apply Hbody. by right.
    + intros [= <- <-]. eapply Hbody; [left|done..].
Qed.

Lemma process_folders_kept (c : loop_config) (w : world) (st : state) (r : result unit) (st' : state) :
  process_folders c w st = (r, st') → kept (st_df st) (st_df st').
Proof.
  apply (for_each_invariant (λ s, kept (st_df st) (st_df s))).
  - intros folder s r1 s1 _ Hs Hstep. eapply kept_trans; [exact Hs|].
    eapply folder_step_kept, process_folder_sound, Hstep.
  - apply kept_refl.
Qed.

Lemma sort_values_kept (df df' : DataFrame) :
  sort_values df = Ok df' → kept df df'.
Proof.
  intros Hsort. split; [by apply sort_values_columns|].
  intros key col cs v Hsel _. by eapply sort_values_selected.
Qed.

(** The ways [annotate] ends: in the loop, or after the final sort and
    save. *)
Lemma annotate_cases (c : loop_config) (w : world) (st : state) (r : result unit) (st' : state) :
  annotate c w st = (r, st') →
  (∃ e, r = Raise e ∧ process_folders c w st = (Raise e, st'))
  ∨ (∃ e st1, r = Raise e ∧ process_folders c w st = (Ok tt, st1) ∧
              sort_values (st_df st1) = Raise e ∧ st' = st1)
  ∨ (∃ st1 df', r = Ok tt ∧ process_folders c w st = (Ok tt, st1) ∧
                sort_values (st_df st1) = Ok df' ∧
                st' = stored (file_path c)
                        (mkState df' (st_files st1) (st_stdout st1)
                                      (st_requests st1)) df').
Proof.
  unfold annotate, bind. destruct (process_folders c w st) as [[[]|e] st1].
  - unfold assign_df, save. destruct (sort_values (st_df st1)) as [df'|e] eqn:E.
    + intros [= <- <-]. right. right. by exists st1, df'.
    + intros [= <- <-]. right. left. by exists e, st1.
  - intros [= <- <-]. left. by exists e.
Qed.

Lemma annotate_kept (c : loop_config) (w : world) (st : state) (r : result unit) (st' : state) :
  annotate c w st = (r, st') → kept (st_df st) (st_df st').
Proof.
  intros Hrun.
  destruct (annotate_cases _ _ _ _ _ Hrun)
    as [(e & _ & Hloop)|[(e & st1 & _ & Hloop & _ & ->)
                        |(st1 & df' & _ & Hloop & Hsort & ->)]].
  - by eapply process_folders_kept.
  - by eapply process_folders_kept.
  - eapply kept_trans; [by eapply process_folders_kept|].
    by apply sort_values_kept.
Qed.

Lemma ensure_row_selected_present (df : DataFrame) (key col : string) (cs : list cell) :
  selected df key col = Ok cs → cs ≠ [] → ensure_row df key = Ok df.
Proof.
  intros Hsel Hne.
  destruct (selected_locs _ _ _ _ Hsel) as (i & j & Hi & Hj & ->).
  apply ensure_row_present with (i := i); [done|].
  destruct (decide (Exists (has_id i key) (rows df))) as [|Hno]; [done|].
  apply filter_has_id_nil in Hno. by rewrite Hno in Hne.
Qed.

Lemma needs_work_filled (df : DataFrame) (key col : string) (cs : list cell) (v : string) :
  selected df key col = Ok cs → Some v ∈ cs → needs_work df key col = Ok false.
Proof.
  intros Hsel Hv. unfold needs_work. rewrite Hsel. f_equal.
  destruct (forallb isna cs) eqn:E; [|done].
  by destruct (forallb_isna_absent cs v E).
Qed.

(** A pass over a folder whose cell is filled asks nothing and writes
    nothing. *)
Lemma process_folder_filled (c : loop_config) (w : world) (folder key d : string) (cs : list cell)
    (v : string) (s : state) (r1 : result unit) (s1 : state) :
  from_end 2 (split "/" folder) = Ok key →
  from_end 1 (split "/" folder) = Ok d →
  selected (st_df s) key (column_of d) = Ok cs →
  Some v ∈ cs →
  process_folder c w folder s = (r1, s1) →
  r1 = Ok tt ∧ st_df s1 = st_df s ∧ st_files s1 = st_files s ∧
  st_requests s1 = st_requests s.
Proof.
  intros Hk Hd Hsel Hv Hrun. apply process_folder_sound in Hrun.
  assert (Hne : cs ≠ []) by (intros ->; by apply elem_of_nil in Hv).
  pose proof (ensure_row_selected_present _ _ _ _ Hsel Hne) as Hrow.
  pose proof (needs_work_filled _ _ _ _ _ Hsel Hv) as Hwork.
  destruct Hrun; same_result; try done.
Qed.

(** C1: a cell that holds a value keeps it through a run of the annotator,
    whatever the model answers and however the run ends: the selection of
    its key and column is the same after the run (up to the final sort of
    the rows).  A pass over the folder of such a cell sends no request and
    writes neither the table nor the file: the request and the assignment
    sit under the test that every selected cell is absent. *)
Theorem filled_cell_kept (c : loop_config) (w : world) (st : state) (r : result unit) (st' : state)
    (key col : string) (cs : list cell) (v : string) :
  annotate c w st = (r, st') →
  selected (st_df st) key col = Ok cs →
  Some v ∈ cs →
  (∃ cs', selected (st_df st') key col = Ok cs' ∧ cs' ≡ₚ cs) ∧
  (∀ folder d s r1 s1,
     from_end 2 (split "/" folder) = Ok key →
     from_end 1 (split "/" folder) = Ok d →
     column_of d = col →
     selected (st_df s) key col = Ok cs →
     process_folder c w folder s = (r1, s1) →
     r1 = Ok tt ∧ st_df s1 = st_df s ∧ st_files s1 = st_files s ∧
     st_requests s1 = st_requests s).
Proof.
  intros Hrun Hsel Hv. split.
  - destruct (annotate_kept _ _ _ _ _ Hrun) as [_ Hkept]. by eapply Hkept.
  - intros folder d s r1 s1 Hk Hd <- Hs Hpass.
    by eapply process_folder_filled.
Qed.

Lemma filled_cell_kept_witness :
  annotate s3 v2_again (start table_v2 ∅)
  = (Ok tt, snd (annotate s3 v2_again (start table_v2 ∅))) ∧
  selected table_v2 "v2" "c1_description" = Ok [Some "Open palm waves"] ∧
  Some "Open palm waves" ∈ [Some "Open palm waves"] ∧
  ∃ cs', selected (st_df (snd (annotate s3 v2_again (start table_v2 ∅))))
           "v2" "c1_description" = Ok cs' ∧
         cs' ≡ₚ [Some "Open palm waves"].
Proof.
  assert (H1 : annotate s3 v2_again (start table_v2 ∅)
               = (Ok tt, snd (annotate s3 v2_again (start table_v2 ∅))))
    by (vm_compute; reflexivity).
  assert (H2 : selected (st_df (start table_v2 ∅)) "v2" "c1_description"
               = Ok [Some "Open palm waves"]) by reflexivity.
  assert (H3 : Some "Open palm waves" ∈ [Some "Open palm waves"])
    by (apply (bool_decide_unpack _); vm_compute; exact I).
  split; [exact H1|]. split; [exact H2|]. split; [exact H3|].
  exact (proj1 (filled_cell_kept s3 v2_again (start table_v2 ∅) (Ok tt) _
                  "v2" "c1_description" [Some "Open palm waves"] "Open palm waves"
                  H1 H2 H3)).
Defined.

(** ** Missing credentials *)

Lemma from_end_error (n : nat) (l : list string) (e : exn) :
  from_end n l = Raise e → e = IndexError.
Proof.
  unfold from_end. case_decide; [|by intros [= <-]].
  destruct (l !! (length l - n)); [done|by intros [= <-]].
Qed.

Lemma ensure_row_error (df : DataFrame) (k : string) (e : exn) :
  ensure_row df k = Raise e → e = KeyError ID.
Proof.
  unfold ensure_row. destruct (get_loc ID (columns df)); [|by intros [= <-]].
  by case_bool_decide.
Qed.

Lemma needs_work_error (df : DataFrame) (k col : string) (e : exn) :
  needs_work df k col = Raise e → ∃ key, e = KeyError key.
Proof.
  unfold needs_work, selected.
  destruct (get_loc ID (columns df)); [|intros [= <-]; by eexists].
  destruct (get_loc col (columns df)); [done|intros [= <-]; by eexists].
Qed.

Lemma sort_values_error (df : DataFrame) (e : exn) :
  sort_values df = Raise e → e = KeyError ID.
Proof.
  unfold sort_values. destruct (get_loc ID (columns df)); [done|by intros [= <-]].
Qed.

Lemma for_each_raise {A : Type} (P : state → Prop) (body : A → M unit)
    (l : list A) :
  (∀ x s r s', x ∈ l → P s → body x s = (r, s') → P s') →
  ∀ st e st', P st → for_each l body st = (Raise e, st') →
  ∃ x s, x ∈ l ∧ P s ∧ body x s = (Raise e, st').
Proof.
  induction l as [|x l IH]; intros Hbody st e st' HP; simpl.
  - unfold ret. intros [=].
  - unfold bind. destruct (body x st) as [[[]|e1] st1] eqn:E.
    + intros Hrest. destruct (IH) with (st := st1) (e := e) (st' := st')
        as (y & s & Hy & Hs & Hrun); [| |done|].
      * intros y ? ? ? Hy. apply Hbody. by right.
      * eapply Hbody; [left|done..].
      * exists y, s. split; [by right|done].
    + intros [= <- <-]. exists x, st. split; [left|done].
Qed.

Lemma appended_refl (df : DataFrame) : appended df df.
Proof. split; [done|]. exists []. by rewrite app_nil_r. Qed.

Lemma appended_ensure_row (df df1 df2 : DataFrame) (k : string) :
  appended df df1 → ensure_row df1 k = Ok df2 → appended df df2.
Proof.
  intros (Hcols & extra & Hrows & Hall) Hrow. unfold ensure_row in Hrow.
  destruct (get_loc ID (columns df1)) as [i|] eqn:Hi; [|done].
  case_bool_decide; injection Hrow as <-; [by split; [|exists extra]|].
  split; [done|]. exists (extra ++ [new_row df1 i k]). cbn [rows]. split.
  - by rewrite Hrows, app_assoc.
  - apply Forall_app. split; [done|]. apply Forall_singleton.
    exists i, k. rewrite <- Hcols. split; [done|].
    unfold new_row. by rewrite Hcols.
Qed.

(** Without credentials a pass never gets to the request: it changes the
    table by [ensure_row] at most, and sends and saves nothing. *)
Lemma unconfigured_step (c : loop_config) (w : world) (folder : string) (st : state)
    (r : result unit) (st' : state) (e : exn) :
  get_azure_openai_client (environment w) = Raise e →
  folder_step c w folder st r st' →
  st_requests st' = st_requests st ∧ st_files st' = st_files st ∧
  (st_df st' = st_df st ∨ ∃ k, ensure_row (st_df st) k = Ok (st_df st')) ∧
  (∀ e', r = Raise e' → e' = e ∨ (∃ key, e' = KeyError key) ∨ e' = IndexError).
Proof.
  intros Henv Hstep.
  destruct Hstep; same_result; cbn [entered st_df st_files st_requests];
    (split; [done|]); (split; [done|]); (split; [eauto|]);
    intros e' [=]; subst.
  - right. right. by eapply from_end_error.
  - right. left. exists ID. by eapply ensure_row_error.
  - right. left. by eapply needs_work_error.
  - left. congruence.
Qed.

Lemma unconfigured_loop (c : loop_config) (w : world) (l : list string) (st : state)
    (r : result unit) (st' : state) (e : exn) :
  get_azure_openai_client (environment w) = Raise e →
  for_each l (process_folder c w) st = (r, st') →
  st_requests st' = st_requests st ∧ st_files st' = st_files st ∧
  appended (st_df st) (st_df st') ∧
  (∀ e', r = Raise e' → e' = e ∨ (∃ key, e' = KeyError key) ∨ e' = IndexError).
Proof.
  intros Henv Hrun.
  set (P := λ s : state, st_requests s = st_requests st ∧ st_files s = st_files st ∧
                         appended (st_df st) (st_df s)).
  assert (Hstep : ∀ x s r1 s1, x ∈ l → P s → process_folder c w x s = (r1, s1) → P s1).
  { intros x s r1 s1 _ (Hreq & Hfiles & Happ) Hpass.
    apply process_folder_sound in Hpass.
    destruct (unconfigured_step _ _ _ _ _ _ _ Henv Hpass) as (H1 & H2 & H3 & _).
    split; [congruence|]. split; [congruence|].
    destruct H3 as [->|[k Hk]]; [done|]. by eapply appended_ensure_row. }
  assert (HP : P st) by (split; [done|split; [done|apply appended_refl]]).
  pose proof (for_each_invariant P _ l Hstep st r st' HP Hrun) as (H1 & H2 & H3).
  split; [done|]. split; [done|]. split; [done|].
  intros e' ->.
  destruct (for_each_raise P _ l Hstep st e' st' HP Hrun) as (x & s & _ & _ & Hpass).
  apply process_folder_sound in Hpass.
  by destruct (unconfigured_step _ _ _ _ _ _ _ Henv Hpass) as (_ & _ & _ & H4); auto.
Qed.

(** C4, as the code has it: the client is built inside
    [describe_hand_gesture], so without credentials the configuration error
    is raised by the pass over the first unit whose cell needs work, after
    [ensure_row] and the progress line and before any request.  A run sends
    no request; a run that fails has written no file and has changed the
    table only by the rows that [ensure_row] appended, and it fails with the
    configuration error or with a lookup error of the path or the table. *)
Theorem unconfigured_run (c : loop_config) (w : world) (st : state) (r : result unit) (st' : state)
    (e : exn) :
  get_azure_openai_client (environment w) = Raise e →
  annotate c w st = (r, st') →
  st_requests st' = st_requests st ∧
  (∀ e', r = Raise e' →
     (e' = e ∨ (∃ key, e' = KeyError key) ∨ e' = IndexError) ∧
     st_files st' = st_files st ∧
     appended (st_df st) (st_df st')) ∧
  (∀ folder k d s df1,
     sorted (glob w folder) ≠ [] →
     from_end 2 (split "/" folder) = Ok k →
     from_end 1 (split "/" folder) = Ok d →
     ensure_row (st_df s) k = Ok df1 →
     needs_work df1 k (column_of d) = Ok true →
     process_folder c w folder s = (Raise e, entered s df1 k d)).
Proof.
  intros Henv Hrun. split; [|split].
  - destruct (annotate_cases _ _ _ _ _ Hrun)
      as [(e' & _ & Hloop)|[(e' & st1 & _ & Hloop & _ & ->)
                           |(st1 & df' & _ & Hloop & _ & ->)]];
      by destruct (unconfigured_loop _ _ _ _ _ _ _ Henv Hloop) as (? & _).
  - intros e' ->.
    destruct (annotate_cases _ _ _ _ _ Hrun)
      as [(e1 & [= <-] & Hloop)|[(e1 & st1 & [= <-] & Hloop & Hsort & ->)
                                |(st1 & df' & [=] & _)]];
      destruct (unconfigured_loop _ _ _ _ _ _ _ Henv Hloop) as (_ & ? & ? & Herr).
    + split; [by apply Herr|done].
    + split; [|done]. right. left. exists ID. by eapply sort_values_error.
  - intros folder k d s df1 Hne Hk Hd Hrow Hwork.
    apply process_folder_complete. by eapply step_unconfigured.
Qed.

Lemma unconfigured_run_witness :
  get_azure_openai_client (environment two_units_unconfigured)
  = Raise (ValueError
      "API key for Microsoft Azure OpenAI not found in environment variables.") ∧
  annotate s3 two_units_unconfigured (start table_v2 ∅)
  = (Raise (ValueError
       "API key for Microsoft Azure OpenAI not found in environment variables."),
     snd (annotate s3 two_units_unconfigured (start table_v2 ∅))) ∧
  st_requests (snd (annotate s3 two_units_unconfigured (start table_v2 ∅))) = [] ∧
  st_files (snd (annotate s3 two_units_unconfigured (start table_v2 ∅))) = ∅ ∧
  appended table_v2 (st_df (snd (annotate s3 two_units_unconfigured (start table_v2 ∅)))).
Proof.
  assert (H1 : get_azure_openai_client (environment two_units_unconfigured)
               = Raise (ValueError
                   "API key for Microsoft Azure OpenAI not found in environment variables."))
    by reflexivity.
  assert (H2 : annotate s3 two_units_unconfigured (start table_v2 ∅)
               = (Raise (ValueError
                    "API key for Microsoft Azure OpenAI not found in environment variables."),
                  snd (annotate s3 two_units_unconfigured (start table_v2 ∅))))
    by (vm_compute; reflexivity).
  destruct (unconfigured_run s3 two_units_unconfigured (start table_v2 ∅) _ _ _ H1 H2)
    as (K1 & K2 & _).
  destruct (K2 _ eq_refl) as (_ & K3 & K4).
  split; [exact H1|]. split; [exact H2|]. split; [exact K1|].
  split; [exact K3 | exact K4].
Defined.

(** C4, counterexample: without credentials, on a file where the slot of
    [v2] is filled, the run first processes [v2] (progress line, cell found
    filled), then appends the row of [v3] to the table and prints its
    progress line, and only then raises the configuration error; and when
    every unit is filled the run ends normally, no error being raised. *)
Lemma configuration_error_not_first :
  get_azure_openai_client unconfigured
  = Raise (ValueError
      "API key for Microsoft Azure OpenAI not found in environment variables.") ∧
  load {[FILE_PATH := to_csv table_v2]} FILE_PATH (schema "_description") = Ok table_v2 ∧
  fst (run two_units_unconfigured {[FILE_PATH := to_csv table_v2]})
  = Raise (ValueError
      "API key for Microsoft Azure OpenAI not found in environment variables.") ∧
  st_stdout (snd (run two_units_unconfigured {[FILE_PATH := to_csv table_v2]}))
  = ["Processing v2 / description c1..."; "Processing v3 / description c1..."] ∧
  rows (st_df (snd (run two_units_unconfigured {[FILE_PATH := to_csv table_v2]})))
  = rows table_v2
    ++ [[Some "v3"; None; None; None; None; None; None; None; None]] ∧
  fst (run v2_again_unconfigured {[FILE_PATH := to_csv table_v2]}) = Ok tt.
Proof. repeat split; vm_compute; reflexivity. Qed.

(** ** A rejected unit *)



Lemma target_Some (folder k d : string) :
  target folder = Some (k, d) ↔
  from_end 2 (split "/" folder) = Ok k ∧ from_end 1 (split "/" folder) = Ok d.
Proof.
  unfold target.
  destruct (from_end 2 (split "/" folder)), (from_end 1 (split "/" folder));
    split; try done; intros H; try (by destruct H); [by injection H as -> ->|].
  destruct H as [[= ->] [= ->]]. done.
Qed.



Lemma sort_values_rectangular (df df' : DataFrame) :
  sort_values df = Ok df' → rectangular df → rectangular df'.
Proof.
  intros Hsort. unfold rectangular.
  rewrite (sort_values_columns _ _ Hsort), (sort_values_rows _ _ Hsort). done.
Qed.

Lemma folder_step_columns (c : loop_config) (w : world) (folder : string) (st : state)
    (r : result unit) (st' : state) :
  folder_step c w folder st r st' → columns (st_df st') = columns (st_df st).
Proof. intros H. by destruct (folder_step_kept _ _ _ _ _ _ H). Qed.

















Lemma sorted_Permutation (l : list string) : sorted l ≡ₚ l.
Proof. apply isort_Permutation. Qed.




(** The run of the three units from no file: [v2] is rejected, the two
    others are filled, and the table is saved sorted. *)
Example three_units_run :
  fst (run three_units ∅) = Ok tt ∧
  rows (st_df (snd (run three_units ∅)))
  = [[Some "v1"; Some "Closed fist moves up."; None; None; None; None; None; None; None];
     [Some "v2"; None; None; None; None; None; None; None; None];
     [Some "v3"; Some "Closed fist moves up."; None; None; None; None; None; None; None]] ∧
  st_files (snd (run three_units ∅)) !! FILE_PATH
  = Some (to_csv (st_df (snd (run three_units ∅)))) ∧
  st_stdout (snd (run three_units ∅))
  = ["Processing v1 / description c1..."; "Processing v2 / description c1...";
     "Exception Error: content blocked."; "Processing v3 / description c1..."].
Proof. repeat split; vm_compute; reflexivity. Qed.

(** ** The command loop stores the normalised answer *)

Lemma process_description_stores (p : predictor) (path id_video : string)
    (n : nat) (description response_content : string) (st : state)
    (client : AzureOpenAI) (df2 : DataFrame) :
  get_azure_openai_client (p_environment p) = Ok client →
  needs_work (st_df st) id_video ("c" +:+ pretty (n + 1)%nat +:+ "_command") = Ok true →
  p_chat p client description = Ok response_content →
  set_cell (st_df st) id_video ("c" +:+ pretty (n + 1)%nat +:+ "_command")
           (command_value response_content) = Ok df2 →
  ∃ st', process_description p path id_video n (Some description) st = (Ok tt, st') ∧
         st_df st' = df2 ∧
         st_files st' = <[path := to_csv df2]> (st_files st).
Proof.
  intros Hclient Hwork Hchat Hset. eexists. split.
  - unfold process_description.
    cbv beta delta [bind lift assign_df print read_df try predict_ucp_command
                    ret raise save].
    cbn [st_df st_files st_stdout st_requests].
    rewrite Hwork, Hclient, Hchat.
    cbn [st_df st_files st_stdout st_requests].
    fold (command_value response_content). rewrite Hset. reflexivity.
  - done.
Qed.

(** In the command loop too, a rejected description is skipped: the pass
    ends normally, the table and the files being those of before. *)
Lemma process_description_rejected (p : predictor) (path id_video : string)
    (n : nat) (description msg : string) (st : state) (client : AzureOpenAI) :
  get_azure_openai_client (p_environment p) = Ok client →
  needs_work (st_df st) id_video ("c" +:+ pretty (n + 1)%nat +:+ "_command") = Ok true →
  p_chat p client description = Raise (RuntimeError msg) →
  ∃ st', process_description p path id_video n (Some description) st = (Ok tt, st') ∧
         st_df st' = st_df st ∧ st_files st' = st_files st.
Proof.
  intros Hclient Hwork Hchat. eexists. split.
  - unfold process_description.
    cbv beta delta [bind lift assign_df print read_df try predict_ucp_command
                    ret raise save].
    cbn [st_df st_files st_stdout st_requests].
    rewrite Hwork, Hclient, Hchat. reflexivity.
  - done.
Qed.

(** ** Sorting *)

Section insertion_sort.
Context {A : Type} (le : A → A → bool).
Hypothesis le_total : ∀ x y, le x y = true ∨ le y x = true.

Lemma insort_HdRel (a x : A) (l : list A) :
  le a x = true → HdRel (λ x y, le x y = true) a l →
  HdRel (λ x y, le x y = true) a (insort le x l).
Proof.
  intros Hax Hhd. destruct l as [|y l]; simpl; [by constructor|].
  destruct (le x y); constructor; [done|]. by inversion Hhd.
Qed.

Lemma insort_Sorted (x : A) (l : list A) :
  Sorted (λ x y, le x y = true) l → Sorted (λ x y, le x y = true) (insort le x l).
Proof.
  induction 1 as [|y l Hs IH Hhd]; simpl; [by repeat constructor|].
  destruct (le x y) eqn:E.
  - constructor; [by constructor|]. by constructor.
  - constructor; [done|]. apply insort_HdRel; [|done].
    destruct (le_total x y) as [H|H]; [congruence|done].
Qed.

Lemma isort_Sorted_total (l : list A) : Sorted (λ x y, le x y = true) (isort le l).
Proof.
  induction l as [|x l IH]; [constructor|]. by apply insort_Sorted.
Qed.

Lemma isort_fixed (l : list A) : Sorted (λ x y, le x y = true) l → isort le l = l.
Proof.
  induction 1 as [|x l Hs IH Hhd]; [done|].
  unfold isort in *. simpl. rewrite IH.
  destruct Hhd as [|y l' Hxy]; [done|]. simpl. by rewrite Hxy.
Qed.
End insertion_sort.

Lemma key_le_total (a b : cell) : key_le a b = true ∨ key_le b a = true.
Proof. destruct a, b; simpl; auto. apply String.leb_total. Qed.

Lemma key_le_trans (a b c : cell) :
  key_le a b = true → key_le b c = true → key_le a c = true.
Proof. destruct a, b, c; simpl; try done. apply string_leb_trans. Qed.

Global Instance key_order_trans : Transitive key_order.
Proof. intros a b c. apply key_le_trans. Qed.

Lemma Sorted_fmap_key (i : nat) (rs : list (list cell)) :
  Sorted (λ r1 r2, key_le (cell_at i r1) (cell_at i r2) = true) rs →
  Sorted key_order (cell_at i <$> rs).
Proof.
  induction 1 as [|r rs Hs IH Hhd]; [constructor|].
  rewrite fmap_cons. constructor; [done|].
  destruct Hhd; rewrite ?fmap_cons; by constructor.
Qed.

Lemma Sorted_key_fmap (i : nat) (rs : list (list cell)) :
  Sorted key_order (cell_at i <$> rs) →
  Sorted (λ r1 r2, key_le (cell_at i r1) (cell_at i r2) = true) rs.
Proof.
  induction rs as [|r rs IH]; [constructor|].
  rewrite fmap_cons. intros H. inversion H as [|? ? Hs Hhd]; subst.
  constructor; [by apply IH|].
  destruct rs; [constructor|]. rewrite fmap_cons in Hhd.
  inversion Hhd; subst. by constructor.
Qed.

Lemma sort_values_ids_sorted (df df' : DataFrame) (i : nat) :
  get_loc ID (columns df) = Some i →
  sort_values df = Ok df' →
  StronglySorted key_order (ids i df').
Proof.
  unfold sort_values. intros -> [= <-]. unfold ids. cbn [rows].
  apply Sorted_StronglySorted; [apply _|].
  apply Sorted_fmap_key.
  apply (isort_Sorted_total (λ r1 r2, key_le (cell_at i r1) (cell_at i r2))).
  intros r1 r2. apply key_le_total.
Qed.

Lemma sort_values_located (df : DataFrame) (i : nat) :
  get_loc ID (columns df) = Some i →
  sort_values df
  = Ok (mkDataFrame (columns df)
          (isort (λ r1 r2, key_le (cell_at i r1) (cell_at i r2)) (rows df))).
Proof. unfold sort_values. by intros ->. Qed.



(** X2: sorting a sorted table changes nothing.  The identifiers are taken
    distinct, which fixes the order of the rows whatever the sorting
    algorithm does with equal keys. *)
Theorem sort_values_idempotent (df df1 : DataFrame) (i : nat) :
  get_loc ID (columns df) = Some i →
  NoDup (ids i df) →
  sort_values df = Ok df1 →
  sort_values df1 = Ok df1.
Proof.
  intros Hi _ Hsort.
  assert (Hcols : columns df1 = columns df) by by eapply sort_values_columns.
  assert (Hs : StronglySorted key_order (ids i df1))
    by by eapply sort_values_ids_sorted.
  rewrite sort_values_located with (i := i) by by rewrite Hcols.
  rewrite isort_fixed; [by destruct df1|].
  apply Sorted_key_fmap, StronglySorted_Sorted, Hs.
Qed.

Lemma sort_values_idempotent_witness :
  ∃ df1, sort_values table_unsorted = Ok df1 ∧ sort_values df1 = Ok df1.
Proof.
  eexists. split; [reflexivity|].
  apply (sort_values_idempotent table_unsorted _ 0); [reflexivity| |reflexivity].
  apply (bool_decide_unpack _). vm_compute. exact I.
Defined.
(** ** What a run writes *)

Lemma folder_step_files (c : loop_config) (w : world) (folder : string) (st : state)
    (r : result unit) (st' : state) (p : string) :
  folder_step c w folder st r st' → p ≠ file_path c →
  st_files st' !! p = st_files st !! p.
Proof.
  destruct 1; cbn [st_files entered asked printed stored]; try done.
  intros Hp. by apply lookup_insert_ne.
Qed.

Lemma process_folders_files (c : loop_config) (w : world) (st : state) (r : result unit)
    (st' : state) (p : string) :
  process_folders c w st = (r, st') → p ≠ file_path c →
  st_files st' !! p = st_files st !! p.
Proof.
  intros Hrun Hp. revert Hrun.
  apply (for_each_invariant (λ s, st_files s !! p = st_files st !! p)); [|done].
  intros folder s r1 s1 _ Hs Hstep. rewrite <- Hs.
  eapply folder_step_files; [|done]. by apply process_folder_sound.
Qed.

Lemma annotate_files (c : loop_config) (w : world) (st : state) (r : result unit)
    (st' : state) (p : string) :
  annotate c w st = (r, st') → p ≠ file_path c →
  st_files st' !! p = st_files st !! p.
Proof.
  intros Hrun Hp.
  destruct (annotate_cases _ _ _ _ _ Hrun)
    as [(e & _ & Hloop)|[(e & st1 & _ & Hloop & _ & ->)
                        |(st1 & df' & _ & Hloop & Hsort & ->)]].
  - by eapply process_folders_files.
  - by eapply process_folders_files.
  - cbn [stored st_files]. etrans; [by apply lookup_insert_ne|].
    by eapply process_folders_files.
Qed.

(** The ways [main] ends: the table cannot be loaded, or it is loaded and
    [annotate] runs on it. *)
Lemma main_cases (c : loop_config) (w : world) (st : state) (r : result unit) (st' : state) :
  main c w st = (r, st') →
  (∃ e, load (st_files st) (file_path c) (schema "_description") = Raise e ∧
        r = Raise e ∧ st' = st)
  ∨ (∃ df, load (st_files st) (file_path c) (schema "_description") = Ok df ∧
           annotate c w (mkState df (st_files st) (st_stdout st) (st_requests st))
           = (r, st')).
Proof.
  unfold main, bind, load_table.
  destruct (load (st_files st) (file_path c) (schema "_description")) as [df|e].
  - intros H. right. by exists df.
  - intros [= <- <-]. left. by exists e.
Qed.

Lemma main_files (c : loop_config) (w : world) (st : state) (r : result unit)
    (st' : state) (p : string) :
  main c w st = (r, st') → p ≠ file_path c →
  st_files st' !! p = st_files st !! p.
Proof.
  intros Hrun Hp.
  destruct (main_cases _ _ _ _ _ Hrun) as [(e & _ & _ & ->)|(df & _ & Hann)]; [done|].
  by apply (annotate_files _ _ _ _ _ p Hann).
Qed.

(** X3: a script writes no file but its own: however its run ends, every
    other path holds after the run what it held before. *)
Theorem main_writes_own_file (c : loop_config) (w : world) (st : state)
    (r : result unit) (st' : state) (p : string) :
  main c w st = (r, st') →
  p ≠ file_path c →
  st_files st' !! p = st_files st !! p.
Proof. apply main_files. Qed.

Lemma main_writes_own_file_witness :
  st_files (snd (run three_units {["notes.csv" := to_csv table_v2]})) !! "notes.csv"
  = Some (to_csv table_v2).
Proof.
  rewrite (main_writes_own_file s3 three_units
             (mkState (mkDataFrame [] []) {["notes.csv" := to_csv table_v2]} [] [])
             (fst (run three_units {["notes.csv" := to_csv table_v2]}))
             (snd (run three_units {["notes.csv" := to_csv table_v2]})) "notes.csv").
  - reflexivity.
  - unfold run. by destruct (main s3 three_units _).
  - discriminate.
Defined.

Lemma annotate_sorted (c : loop_config) (w : world) (st st' : state) :
  annotate c w st = (Ok tt, st') →
  ∃ i, get_loc ID (columns (st_df st')) = Some i ∧
       StronglySorted key_order (ids i (st_df st')) ∧
       st_files st' !! file_path c = Some (to_csv (st_df st')).
Proof.
  intros Hrun.
  destruct (annotate_cases _ _ _ _ _ Hrun)
    as [(e & [=] & _)|[(e & st1 & [=] & _)|(st1 & df' & _ & Hloop & Hsort & ->)]].
  cbn [stored st_df st_files].
  destruct (get_loc ID (columns (st_df st1))) as [i|] eqn:Hi.
  - exists i. split; [by rewrite (sort_values_columns _ _ Hsort)|].
    split; [by eapply sort_values_ids_sorted|]. apply lookup_insert_eq.
  - unfold sort_values in Hsort. by rewrite Hi in Hsort.
Qed.

(** X4: when a script ends normally, the table is in ascending order of its
    identifiers, rows without identifier last, and the file of the script
    holds exactly that table. *)
Theorem main_sorted_saved (c : loop_config) (w : world) (st st' : state) :
  main c w st = (Ok tt, st') →
  ∃ i, get_loc ID (columns (st_df st')) = Some i ∧
       StronglySorted key_order (ids i (st_df st')) ∧
       st_files st' !! file_path c = Some (to_csv (st_df st')).
Proof.
  intros Hrun.
  destruct (main_cases _ _ _ _ _ Hrun) as [(e & _ & [=] & _)|(df & _ & Hann)].
  by eapply annotate_sorted.
Qed.

Lemma main_sorted_saved_witness :
  ∃ i, get_loc ID (columns (st_df (snd (run three_units ∅)))) = Some i ∧
       StronglySorted key_order (ids i (st_df (snd (run three_units ∅)))) ∧
       st_files (snd (run three_units ∅)) !! file_path s3
       = Some (to_csv (st_df (snd (run three_units ∅)))).
Proof.
  apply (main_sorted_saved s3 three_units (mkState (mkDataFrame [] []) ∅ [] [])).
  vm_compute. reflexivity.
Defined.

(** ** Identifiers stay distinct *)

Lemma ensure_row_ids (df df1 : DataFrame) (k : string) (i : nat) :
  get_loc ID (columns df) = Some i →
  ensure_row df k = Ok df1 →
  ids i df1 = ids i df ∨ ((Some k ∉ ids i df) ∧ ids i df1 = ids i df ++ [Some k]).
Proof.
  intros Hi. unfold ensure_row. rewrite Hi. case_bool_decide as Hex; intros [= <-].
  - by left.
  - right. split; [by apply not_Exists_has_id|].
    unfold ids. cbn [rows]. rewrite fmap_app. simpl.
    rewrite new_row_id; [done|]. by eapply get_loc_lt.
Qed.

Lemma set_cell_ids (df df2 : DataFrame) (k col v : string) (i j : nat) :
  get_loc ID (columns df) = Some i →
  get_loc col (columns df) = Some j →
  col ≠ ID →
  set_cell df k col v = Ok df2 →
  ids i df2 = ids i df.
Proof.
  intros Hi Hj Hcol. rewrite (set_cell_located df k col v i j Hi Hj). intros [= <-].
  assert (Hij : i ≠ j) by (eapply get_loc_ne; done).
  unfold ids. cbn [rows]. rewrite <- list_fmap_compose.
  apply list_fmap_ext. intros n r _. unfold compose.
  case_decide; [by apply cell_at_insert_ne|done].
Qed.

Lemma folder_step_ids (c : loop_config) (w : world) (folder : string) (st : state)
    (r : result unit) (st' : state) (i : nat) :
  folder_step c w folder st r st' →
  get_loc ID (columns (st_df st)) = Some i →
  ids i (st_df st') = ids i (st_df st)
  ∨ ∃ k, (Some k ∉ ids i (st_df st)) ∧ ids i (st_df st') = ids i (st_df st) ++ [Some k].
Proof.
  intros Hstep Hi.
  assert (Hrow : ∀ k df1, ensure_row (st_df st) k = Ok df1 →
            ids i df1 = ids i (st_df st)
            ∨ ∃ k, (Some k ∉ ids i (st_df st)) ∧ ids i df1 = ids i (st_df st) ++ [Some k]).
  { intros k df1 H. destruct (ensure_row_ids _ _ _ _ Hi H) as [?|[? ?]]; eauto. }
  destruct Hstep; cbn [st_df entered asked printed stored]; eauto.
  match goal with
  | Hw : needs_work _ _ _ = Ok true, Hs : set_cell _ _ _ _ = Ok _,
    He : ensure_row _ _ = Ok _ |- _ =>
      destruct (needs_work_locs _ _ _ _ Hw) as (i' & j & Hi' & Hj & _);
      assert (i' = i) by (rewrite (ensure_row_columns _ _ _ He) in Hi'; congruence);
      subst i';
      rewrite (set_cell_ids _ _ _ _ _ i j Hi' Hj (column_of_not_ID _) Hs); eauto
  end.
Qed.

Lemma folder_step_NoDup (c : loop_config) (w : world) (folder : string) (st : state)
    (r : result unit) (st' : state) (i : nat) :
  folder_step c w folder st r st' →
  get_loc ID (columns (st_df st)) = Some i →
  NoDup (ids i (st_df st)) → NoDup (ids i (st_df st')).
Proof.
  intros Hstep Hi Hnd.
  destruct (folder_step_ids _ _ _ _ _ _ i Hstep Hi) as [->|(k & Hk & ->)]; [done|].
  apply NoDup_app. split; [done|]. split; [|apply NoDup_singleton].
  intros x Hx Hx'. apply list_elem_of_singleton in Hx'. by subst x.
Qed.

(** X5: the identifiers stay distinct: on a table whose rows have distinct
    identifiers, the annotation loop and the final sort, however they end,
    leave a table whose rows have distinct identifiers. *)
Theorem identifiers_stay_distinct (c : loop_config) (w : world) (st : state)
    (r : result unit) (st' : state) (i : nat) :
  annotate c w st = (r, st') →
  get_loc ID (columns (st_df st)) = Some i →
  NoDup (ids i (st_df st)) →
  NoDup (ids i (st_df st')).
Proof.
  intros Hrun Hi Hnd.
  assert (Hloop : ∀ r1 st1, process_folders c w st = (r1, st1) →
            columns (st_df st1) = columns (st_df st) ∧ NoDup (ids i (st_df st1))).
  { intros r1 st1.
    apply (for_each_invariant
             (λ s, columns (st_df s) = columns (st_df st) ∧ NoDup (ids i (st_df s))));
      [|done].
    intros folder s r2 s2 _ [Hc Hn] Hstep. apply process_folder_sound in Hstep.
    split; [by rewrite (folder_step_columns _ _ _ _ _ _ Hstep)|].
    eapply folder_step_NoDup; [exact Hstep| |done]. by rewrite Hc. }
  destruct (annotate_cases _ _ _ _ _ Hrun)
    as [(e & _ & H)|[(e & st1 & _ & H & _ & ->)|(st1 & df' & _ & H & Hsort & ->)]].
  - by apply (Hloop _ _ H).
  - by apply (Hloop _ _ H).
  - cbn [stored st_df]. destruct (Hloop _ _ H) as [Hc Hn].
    unfold ids. rewrite (sort_values_rows _ _ Hsort). exact Hn.
Qed.

Lemma identifiers_stay_distinct_witness :
  NoDup (ids 0 (st_df (snd (annotate s3 three_units (start table_v2 ∅))))).
Proof.
  apply (identifiers_stay_distinct s3 three_units (start table_v2 ∅)
           (fst (annotate s3 three_units (start table_v2 ∅)))).
  - by destruct (annotate s3 three_units (start table_v2 ∅)).
  - reflexivity.
  - apply (bool_decide_unpack _). vm_compute. exact I.
Defined.

(** ** The sampler, for every list *)

Lemma sample_length (l : list string) :
  length (sample l) = Nat.min (length l) 50.
Proof.
  unfold sample. case_decide as Hlen; [|lia].
  rewrite (Permutation_length (sorted_Permutation _)).
  rewrite length_fmap, sample_indices_length. lia.
Qed.

Lemma sample_elem_of (l : list string) (x : string) : x ∈ sample l → x ∈ l.
Proof.
  unfold sample. case_decide as Hlen; [|done].
  rewrite sorted_Permutation. intros (i & -> & Hi)%list_elem_of_fmap.
  assert (Hlt : i < length l).
  { eapply (proj1 (Forall_forall _ _) (sample_indices_lt (length l) ltac:(lia))), Hi. }
  destruct (lookup_lt_is_Some_2 l i Hlt) as [y Hy]. rewrite Hy. simpl.
  by eapply list_elem_of_lookup_2.
Qed.

Lemma sorted_is_sorted (l : list string) : is_sorted (sorted l) = true.
Proof.
  apply is_sorted_Sorted. apply (isort_Sorted_total String.leb), String.leb_total.
Qed.

(** X6: the sampler never sends more than 50 names and never a name it was
    not given: for every list, in whatever order, the result has the length
    of the list or 50, whichever is smaller, each of its names is a name of
    the list, and the result of a list of more than 50 names is in ascending
    order. *)
Theorem sample_bounded (l : list string) :
  length (sample l) = Nat.min (length l) 50 ∧
  (∀ x, x ∈ sample l → x ∈ l) ∧
  ((50 < length l)%nat → is_sorted (sample l) = true).
Proof.
  split; [apply sample_length|]. split; [apply sample_elem_of|].
  intros Hlen. unfold sample. rewrite decide_True by done. apply sorted_is_sorted.
Qed.

(** X7: from a sorted list of any length the sampler returns a subsequence
    of the list (names in their original order, none repeated more often
    than in the list) that begins with the first name of the list and ends
    with its last name. *)
Theorem sample_keeps_ends (l : list string) :
  is_sorted l = true →
  sample l `sublist_of` l ∧ head (sample l) = head l ∧ last (sample l) = last l.
Proof.
  intros Hsorted. destruct (decide (50 < length l)%nat) as [Hlen|Hlen].
  - destruct (sample_large l Hlen Hsorted) as [Heq Hsub]. split; [done|].
    rewrite Heq. split.
    + rewrite !head_lookup, list_lookup_fmap, <- head_lookup, sample_indices_head.
      simpl. destruct (lookup_lt_is_Some_2 l 0) as [x Hx]; [lia|]. by rewrite Hx.
    + rewrite fmap_last, sample_indices_last. simpl. rewrite last_lookup.
      replace (Nat.pred (length l)) with (length l - 1)%nat by lia.
      destruct (lookup_lt_is_Some_2 l (length l - 1)) as [x Hx]; [lia|]. by rewrite Hx.
  - unfold sample. by rewrite decide_False.
Qed.

Lemma sample_keeps_ends_witness :
  sample (frames 731) `sublist_of` frames 731 ∧
  head (sample (frames 731)) = Some "frame_000.jpg" ∧
  last (sample (frames 731)) = Some "frame_730.jpg".
Proof.
  destruct (sample_keeps_ends (frames 731)) as (H1 & H2 & H3); [vm_compute; reflexivity|].
  split; [exact H1|]. split; [rewrite H2|rewrite H3]; vm_compute; reflexivity.
Defined.

(** ** The requests of a run *)

Lemma folder_step_requests (c : loop_config) (w : world) (folder : string) (st : state)
    (r : result unit) (st' : state) :
  folder_step c w folder st r st' →
  st_requests st' = st_requests st
  ∨ (has_images w folder ∧ st_requests st' = st_requests st ++ [payload_of c w folder]).
Proof.
  destruct 1; cbn [st_requests entered asked printed stored]; auto.
Qed.

Lemma loop_requests (c : loop_config) (w : world) (l : list string) :
  ∀ st r st', for_each l (process_folder c w) st = (r, st') →
  ∃ new, st_requests st' = st_requests st ++ new ∧
         new `sublist_of` (payload_of c w <$> filter (has_images w) l).
Proof.
  induction l as [|x l IH]; intros st r st'; simpl.
  - unfold ret. intros [= <- <-]. exists []. by rewrite app_nil_r.
  - unfold bind. destruct (process_folder c w x st) as [r1 st1] eqn:E.
    apply process_folder_sound, folder_step_requests in E.
    destruct r1 as [[]|e].
    + intros Hrest. destruct (IH _ _ _ Hrest) as (new & Hnew & Hsub).
      destruct E as [E|[Himg E]]; rewrite E in Hnew.
      * exists new. split; [done|]. rewrite filter_cons. case_decide; [|done].
        rewrite fmap_cons. by apply sublist_cons.
      * exists (payload_of c w x :: new). split; [by rewrite Hnew, <- app_assoc|].
        rewrite filter_cons_True by done. rewrite fmap_cons. by apply sublist_skip.
    + intros [= <- <-]. destruct E as [E|[Himg E]]; rewrite E.
      * exists []. split; [by rewrite app_nil_r|]. apply sublist_nil_l.
      * exists [payload_of c w x]. split; [done|].
        rewrite filter_cons_True by done. rewrite fmap_cons.
        apply sublist_skip, sublist_nil_l.
Qed.

Lemma annotate_requests (c : loop_config) (w : world) (st : state) (r : result unit)
    (st' : state) :
  annotate c w st = (r, st') →
  ∃ new, st_requests st' = st_requests st ++ new ∧
         new `sublist_of` (payload_of c w <$> units w).
Proof.
  intros Hrun.
  destruct (annotate_cases _ _ _ _ _ Hrun)
    as [(e & _ & H)|[(e & st1 & _ & H & _ & ->)|(st1 & df' & _ & H & Hsort & ->)]];
    by apply loop_requests in H.
Qed.

(** X8: the requests of a run follow the folders: what the loop sends, in
    the order in which it sends it, is a subsequence of the payloads of the
    folders that have image files, taken in sorted order; so there is at
    most one request per such folder, none for a folder without files, and
    each request carries the payload of its folder. *)
Theorem requests_follow_folders (c : loop_config) (w : world) (st : state)
    (r : result unit) (st' : state) :
  annotate c w st = (r, st') →
  ∃ new, st_requests st' = st_requests st ++ new ∧
         new `sublist_of` (payload_of c w <$> units w).
Proof. apply annotate_requests. Qed.

Lemma requests_follow_folders_witness :
  ∃ new, st_requests (snd (annotate s3 three_units (start table_v2 ∅))) = [] ++ new ∧
         new `sublist_of` (payload_of s3 three_units <$> units three_units).
Proof.
  apply (requests_follow_folders s3 three_units (start table_v2 ∅)
           (fst (annotate s3 three_units (start table_v2 ∅)))).
  by destruct (annotate s3 three_units (start table_v2 ∅)).
Defined.

(** X9: no request of the image script carries more than 50 images. *)
Theorem requests_at_most_50_images (w : world) (st : state) (r : result unit)
    (st' : state) :
  annotate s3 w st = (r, st') →
  ∃ new, st_requests st' = st_requests st ++ new ∧
         Forall (λ images, (length images ≤ 50)%nat) new.
Proof.
  intros Hrun. destruct (annotate_requests _ _ _ _ _ Hrun) as (new & Hnew & Hsub).
  exists new. split; [done|]. apply Forall_forall. intros p Hp.
  eapply elem_of_sublist in Hp; [|exact Hsub].
  apply list_elem_of_fmap in Hp as (folder & -> & _).
  unfold payload_of. cbn [payload s3]. rewrite sample_length. lia.
Qed.

Lemma requests_at_most_50_images_witness :
  ∃ new, st_requests (snd (annotate s3 long_clip (start empty_table ∅))) = [] ++ new ∧
         Forall (λ images, (length images ≤ 50)%nat) new.
Proof.
  apply (requests_at_most_50_images long_clip (start empty_table ∅)
           (fst (annotate s3 long_clip (start empty_table ∅)))).
  by destruct (annotate s3 long_clip (start empty_table ∅)).
Defined.

(** ** Folders *)

Lemma for_each_filter {A : Type} (P : A → Prop) `{∀ x, Decision (P x)}
    (body : A → M unit) (l : list A) (st : state) :
  (∀ x s, ¬ P x → body x s = (Ok tt, s)) →
  for_each (filter P l) body st = for_each l body st.
Proof.
  intros Hskip. revert st. induction l as [|x l IH]; intros st; [done|].
  rewrite filter_cons. case_decide as HP; simpl; unfold bind.
  - destruct (body x st) as [[[]|e] st1]; [apply IH|done].
  - rewrite Hskip by done. apply IH.
Qed.

(** X10: folders without image files take no part in a run: the loop over
    all folders is the loop over the folders that have files, whatever the
    state it starts in. *)
Theorem empty_folders_skipped (c : loop_config) (w : world) (st : state) :
  process_folders c w st = for_each (units w) (process_folder c w) st.
Proof.
  unfold process_folders, units. symmetry. apply for_each_filter.
  intros folder s Himg. unfold process_folder.
  destruct (sorted (glob w folder)) eqn:E; [done|].
  exfalso. apply Himg. unfold has_images. by rewrite E.
Qed.

Lemma split_nonempty (sep : ascii) (s : string) : split sep s ≠ [].
Proof.
  destruct s as [|c s]; simpl; [done|].
  destruct (Ascii.eqb c sep); [done|]. by destruct (split sep s).
Qed.

Lemma split_app (sep : ascii) (s1 s2 : string) :
  split sep (s1 +:+ String sep s2) = split sep s1 ++ split sep s2.
Proof.
  induction s1 as [|c s1 IH]; simpl.
  - by rewrite Ascii.eqb_refl.
  - destruct (Ascii.eqb c sep); [by rewrite IH|].
    rewrite IH. pose proof (split_nonempty sep s1).
    by destruct (split sep s1).
Qed.

Lemma split_whole (sep : ascii) (s : string) :
  all_chars (λ c, negb (Ascii.eqb c sep)) s = true → split sep s = [s].
Proof.
  induction s as [|c s IH]; simpl; [done|].
  intros [Hc Hs]%andb_true_iff. apply negb_true_iff in Hc. rewrite Hc.
  by rewrite IH.
Qed.

Lemma from_end_snoc (l : list string) (d : string) : from_end 1 (l ++ [d]) = Ok d.
Proof.
  unfold from_end. rewrite length_app. simpl.
  rewrite decide_True by lia.
  replace (length l + 1 - 1)%nat with (length l + 0)%nat by lia.
  by rewrite lookup_app_r, Nat.add_0_r, Nat.sub_diag by lia.
Qed.

Lemma from_end_snoc2 (l : list string) (v d : string) :
  from_end 2 (l ++ [v; d]) = Ok v.
Proof.
  unfold from_end. rewrite length_app. simpl.
  rewrite decide_True by lia.
  replace (length l + 2 - 2)%nat with (length l + 0)%nat by lia.
  by rewrite lookup_app_r, Nat.add_0_r, Nat.sub_diag by lia.
Qed.

(** X11: the cell of a folder is named by the last two components of its
    path: for a path that ends with [/v/d], where [v] and [d] have no
    separator, the identifier is [v] and the slot is [d], whatever comes
    before; a path of a single component names no cell (the subscript
    [[-2]] fails). *)
Theorem target_of_path (root v d : string) :
  no_slash v = true → no_slash d = true →
  target (root +:+ "/" +:+ v +:+ "/" +:+ d) = Some (v, d) ∧ target d = None.
Proof.
  intros Hv Hd. split.
  - apply target_Some.
    change (root +:+ "/" +:+ v +:+ "/" +:+ d)
      with (root +:+ String "/" (v +:+ String "/" d)).
    rewrite !split_app, (split_whole "/" v Hv), (split_whole "/" d Hd).
    split; [apply from_end_snoc2|].
    change ([v] ++ [d]) with ([v; d]).
    replace (split "/" root ++ [v; d]) with ((split "/" root ++ [v]) ++ [d])
      by by rewrite <- app_assoc.
    apply from_end_snoc.
  - unfold target. by rewrite (split_whole "/" d Hd).
Qed.

Lemma target_of_path_witness :
  target ("../dataset/images" +:+ "/" +:+ "video_017" +:+ "/" +:+ "c3")
  = Some ("video_017", "c3") ∧ target "c3" = None.
Proof. apply (target_of_path "../dataset/images" "video_017" "c3"); reflexivity. Defined.

(** In a loop that ends normally every pass ended normally, in a state that
    the passes before it reached. *)
Lemma for_each_ok {A : Type} (P : state → Prop) (body : A → M unit) (l : list A) :
  (∀ x s r s', x ∈ l → P s → body x s = (r, s') → P s') →
  ∀ st st', P st → for_each l body st = (Ok tt, st') →
  ∀ x, x ∈ l → ∃ s s', P s ∧ body x s = (Ok tt, s').
Proof.
  induction l as [|x l IH]; intros Hbody st st' HP; simpl.
  - intros _ y Hy. by apply elem_of_nil in Hy.
  - unfold bind. destruct (body x st) as [[[]|e] st1] eqn:E; [|done].
    intros Hrest y Hy. apply elem_of_cons in Hy as [->|Hy].
    + by exists st, st1.
    + eapply IH; [| |exact Hrest|exact Hy].
      * intros z ? ? ? Hz. apply Hbody. by right.
      * eapply Hbody; [left|done..].
Qed.

(** X12: a folder with image files whose slot is not a column of the table
    stops the run: when the walk holds such a folder (a folder named
    otherwise than [c1] ... [c8], or images lying in the folder of the video
    itself), the run ends with an exception, and so it does not reach the
    final sort and save. *)
Theorem unknown_slot_aborts (c : loop_config) (w : world) (st : state) (r : result unit)
    (st' : state) (folder k d : string) :
  annotate c w st = (r, st') →
  folder ∈ walk w → has_images w folder →
  target folder = Some (k, d) →
  get_loc (column_of d) (columns (st_df st)) = None →
  ∃ e, r = Raise e.
Proof.
  intros Hrun Hin Himg Htarget Hcol.
  destruct r as [[]|e]; [exfalso|by exists e].
  destruct (annotate_cases _ _ _ _ _ Hrun)
    as [(e & [=] & _)|[(e & st1 & [=] & _)|(st1 & df' & _ & Hloop & _)]].
  unfold process_folders in Hloop.
  destruct (for_each_ok (λ s, columns (st_df s) = columns (st_df st))
              (process_folder c w) (sorted (walk w))) with (st := st) (st' := st1)
              (x := folder) as (s & s' & Hs & Hpass); [|done|done| |].
  - intros x s r1 s1 _ Hs Hstep. rewrite <- Hs.
    eapply folder_step_columns, process_folder_sound, Hstep.
  - by rewrite sorted_Permutation.
  - apply target_Some in Htarget as [Hk Hd].
    assert (Hnone : ∀ df1 b, ensure_row (st_df s) k = Ok df1 →
              needs_work df1 k (column_of d) = Ok b → False).
    { intros df1 b He Hw.
      destruct (needs_work_locs _ _ _ _ Hw) as (i & j & _ & Hj & _).
      rewrite (ensure_row_columns _ _ _ He), Hs, Hcol in Hj. done. }
    apply process_folder_sound in Hpass.
    inversion Hpass; subst; same_result; try done; by eapply Hnone.
Qed.

Lemma unknown_slot_aborts_witness :
  ∃ e, fst (annotate s3 stray_folder (start empty_table ∅)) = Raise e.
Proof.
  apply (unknown_slot_aborts s3 stray_folder (start empty_table ∅) _
           (snd (annotate s3 stray_folder (start empty_table ∅)))
           "dataset/images/v1" "images" "v1").
  - by destruct (annotate s3 stray_folder (start empty_table ∅)).
  - apply (bool_decide_unpack _). vm_compute. exact I.
  - unfold has_images. vm_compute. discriminate.
  - reflexivity.
  - reflexivity.
Defined.

(** ** The clean-up *)

Lemma clean_map (df : DataFrame) : clean df = map_cells clean_cell df.
Proof.
  rewrite clean_cells. apply map_cells_ext. intros r c _ _.
  destruct c as [s|]; [|by rewrite replace_terms_None].
  rewrite replace_terms_Some. unfold clean_cell. by case_bool_decide.
Qed.

(** X13: the eight replacements and the regular expression of the clean-up
    amount to one pass over the cells: the labels and the shape of the table
    stay, an absent cell stays absent, a cell that holds exactly one of the
    eight blocklist sentences becomes absent, and any other text is kept
    without its final period, if it has one. *)
Theorem clean_cellwise (df : DataFrame) :
  columns (clean df) = columns df ∧
  rows (clean df) = (λ r : list cell, clean_cell <$> r) <$> rows df.
Proof. by rewrite clean_map. Qed.

Lemma clean_cell_settled (s t : string) :
  settled s = true → clean_cell (Some s) = Some t →
  ends_with "." t = false ∧ ends_with (String "." (String NL "")) t = false ∧ t ∉ terms.
Proof.
  intros Hs. simpl. case_bool_decide; [done|]. intros [= <-].
  destruct (sub_final_dot_settles s Hs) as [H1 H2].
  split; [done|]. split; [done|].
  intros Hin%terms_end_with_dot. congruence.
Qed.

(** X14: after the clean-up of a table whose texts do not end with two
    periods (see [settled]), no text of the table ends with a period and no
    cell holds a blocklist sentence. *)
Theorem clean_leaves_no_period (df : DataFrame) :
  (∀ r s, r ∈ rows df → Some s ∈ r → settled s = true) →
  ∀ r t, r ∈ rows (clean df) → Some t ∈ r →
         ends_with "." t = false ∧ t ∉ terms.
Proof.
  intros Hdf r t. rewrite clean_map. unfold map_cells. cbn [rows].
  intros (r0 & -> & Hr0)%list_elem_of_fmap (c & Hc & Hin)%list_elem_of_fmap.
  destruct c as [s|]; [|done].
  destruct (clean_cell_settled s t (Hdf r0 s Hr0 Hin)) as (H1 & _ & H3); done.
Qed.

Lemma clean_leaves_no_period_witness :
  rows (clean table_raised) = [[Some "v1"; None; Some "Hand raised"]] ∧
  ends_with "." "Hand raised" = false ∧ "Hand raised" ∉ terms.
Proof.
  split; [reflexivity|].
  apply (clean_leaves_no_period table_raised) with (r := [Some "v1"; None; Some "Hand raised"]).
  - intros r s Hr Hs. apply list_elem_of_singleton in Hr. subst r.
    rewrite !elem_of_cons, elem_of_nil in Hs.
    destruct Hs as [[= ->]|[[= ->]|[[= ->]|[]]]]; reflexivity.
  - apply (bool_decide_unpack _). vm_compute. exact I.
  - apply (bool_decide_unpack _). vm_compute. exact I.
Defined.

Lemma clean_cell_fixed (s : string) :
  ends_with "." s = false → ends_with (String "." (String NL "")) s = false →
  clean_cell (Some s) = Some s.
Proof.
  intros H1 H2. simpl. rewrite bool_decide_eq_false_2.
  - by rewrite sub_final_dot_fixed.
  - intros Hin%terms_end_with_dot. congruence.
Qed.

Lemma map_cells_id (f : cell → cell) (df : DataFrame) :
  (∀ r c, r ∈ rows df → c ∈ r → f c = c) → map_cells f df = df.
Proof.
  intros H. rewrite (map_cells_ext f (λ c, c)) by done.
  unfold map_cells. destruct df as [cols rs]. cbn [columns rows]. f_equal.
  rewrite <- (list_fmap_id rs) at 2. apply list_fmap_ext. intros i r _.
  apply list_fmap_id.
Qed.

(** X15: the clean-up changes nothing in a table none of whose texts ends
    with a period, or with a period and a newline. *)
Theorem clean_fixed (df : DataFrame) :
  (∀ r s, r ∈ rows df → Some s ∈ r →
          ends_with "." s = false ∧ ends_with (String "." (String NL "")) s = false) →
  clean df = df.
Proof.
  intros Hdf. rewrite clean_map. apply map_cells_id. intros r c Hr Hc.
  destruct c as [s|]; [|done].
  destruct (Hdf r s Hr Hc). by apply clean_cell_fixed.
Qed.

Lemma clean_fixed_witness : clean table_v2 = table_v2.
Proof.
  apply (clean_fixed table_v2).
  intros r s Hr Hs. apply list_elem_of_singleton in Hr. subst r.
  rewrite !elem_of_cons, elem_of_nil in Hs.
  destruct Hs as [[= ->]|[[= ->]|Hs]]; [split; reflexivity..|].
  repeat (destruct Hs as [[=]|Hs]). done.
Defined.

(** ** Files *)


















(** ** Assignment and guard *)

Lemma set_cell_fills (df : DataFrame) (k col v : string) (cs : list cell) :
  rectangular df → col ≠ ID →
  selected df k col = Ok cs →
  ∃ df2, set_cell df k col v = Ok df2 ∧
         columns df2 = columns df ∧
         selected df2 k col = Ok (replicate (length cs) (Some v)) ∧
         ∀ key col' cs', key ≠ k ∨ col' ≠ col →
                         selected df key col' = Ok cs' → selected df2 key col' = Ok cs'.
Proof.
  intros Hrect Hcol Hsel.
  destruct (selected_locs _ _ _ _ Hsel) as (i & j & Hi & Hj & _).
  pose proof (set_cell_located df k col v i j Hi Hj) as Hset.
  eexists. split; [exact Hset|]. split; [done|]. split.
  - by eapply set_cell_selected_same.
  - intros key col' cs' Hor Hsel'. by eapply set_cell_selected_other.
Qed.

(** X19: the assignment writes the selected cells and nothing else: on a
    table with the row and the column, [set_cell] returns a table with the
    same labels in which every cell of the selection holds the value, so
    that the guard no longer asks for work when the selection has a row,
    and in which the selection of every other key or column is as before. *)
Theorem set_cell_writes_selection (df : DataFrame) (k col v : string) (cs : list cell) :
  rectangular df → col ≠ ID →
  selected df k col = Ok cs → cs ≠ [] →
  ∃ df2, set_cell df k col v = Ok df2 ∧
         columns df2 = columns df ∧
         selected df2 k col = Ok (replicate (length cs) (Some v)) ∧
         needs_work df2 k col = Ok false ∧
         ∀ key col' cs', key ≠ k ∨ col' ≠ col →
                         selected df key col' = Ok cs' → selected df2 key col' = Ok cs'.
Proof.
  intros Hrect Hcol Hsel Hne.
  destruct (set_cell_fills df k col v cs Hrect Hcol Hsel) as (df2 & H1 & H2 & H3 & H4).
  exists df2. repeat (split; [done|]). split; [|done].
  eapply needs_work_filled; [exact H3|].
  destruct cs; [done|]. left.
Qed.

Lemma set_cell_writes_selection_witness :
  ∃ df2, set_cell table_v2 "v2" "c2_description" "Thumb up" = Ok df2 ∧
         columns df2 = columns table_v2 ∧
         selected df2 "v2" "c2_description" = Ok (replicate (length [None : cell]) (Some "Thumb up")) ∧
         needs_work df2 "v2" "c2_description" = Ok false ∧
         ∀ key col' cs', key ≠ "v2" ∨ col' ≠ "c2_description" →
                         selected table_v2 key col' = Ok cs' → selected df2 key col' = Ok cs'.
Proof.
  apply (set_cell_writes_selection table_v2 "v2" "c2_description" "Thumb up" [None]).
  - repeat constructor.
  - discriminate.
  - reflexivity.
  - discriminate.
Defined.






(** ** A script and its file *)

Lemma folder_step_same_at (c : loop_config) (w : world) (folder : string) (s1 s2 : state)
    (r : result unit) (s1' : state) :
  folder_step c w folder s1 r s1' →
  same_at (file_path c) s1 s2 →
  ∃ s2', folder_step c w folder s2 r s2' ∧ same_at (file_path c) s1' s2'.
Proof.
  intros Hstep [Hdf Hfs].
  destruct Hstep; rewrite ?Hdf in *;
    (eexists; split; [econstructor; eassumption|]);
    unfold same_at; cbn [st_df st_files entered asked printed stored];
    try done; unfold files in *; by rewrite !lookup_insert_eq.
Qed.

Lemma loop_same_at (c : loop_config) (w : world) (l : list string) :
  ∀ s1 s2 r s1', for_each l (process_folder c w) s1 = (r, s1') →
  same_at (file_path c) s1 s2 →
  ∃ s2', for_each l (process_folder c w) s2 = (r, s2') ∧ same_at (file_path c) s1' s2'.
Proof.
  induction l as [|x l IH]; intros s1 s2 r s1'; simpl.
  - unfold ret. intros [= <- <-] Hsame. by exists s2.
  - unfold bind. destruct (process_folder c w x s1) as [r1 a1] eqn:E.
    intros Hrest Hsame. apply process_folder_sound in E.
    destruct (folder_step_same_at _ _ _ _ _ _ _ E Hsame) as (a2 & E2 & Hsame').
    apply process_folder_complete in E2. rewrite E2.
    destruct r1 as [[]|e].
    + by apply (IH a1 a2).
    + injection Hrest as <- <-. by exists a2.
Qed.

Lemma annotate_same_at (c : loop_config) (w : world) (s1 s2 : state) (r : result unit)
    (s1' : state) :
  annotate c w s1 = (r, s1') →
  same_at (file_path c) s1 s2 →
  ∃ s2', annotate c w s2 = (r, s2') ∧ same_at (file_path c) s1' s2'.
Proof.
  unfold annotate, bind, process_folders.
  destruct (for_each (sorted (walk w)) (process_folder c w) s1) as [r1 a1] eqn:E.
  intros Hrest Hsame.
  destruct (loop_same_at _ _ _ _ _ _ _ E Hsame) as (a2 & -> & [Hdf Hfs]).
  destruct r1 as [[]|e].
  - unfold assign_df, save in *. rewrite <- Hdf.
    destruct (sort_values (st_df a1)) as [df'|e].
    + injection Hrest as <- <-. eexists. split; [done|].
      unfold same_at, files in *. cbn [st_df st_files]. by rewrite !lookup_insert_eq.
    + injection Hrest as <- <-. by exists a2.
  - injection Hrest as <- <-. by exists a2.
Qed.

Lemma main_same_file (c : loop_config) (w : world) (s1 s2 : state) (r : result unit)
    (s1' : state) :
  main c w s1 = (r, s1') →
  st_files s1 !! file_path c = st_files s2 !! file_path c →
  ∃ s2', main c w s2 = (r, s2') ∧
         st_files s1' !! file_path c = st_files s2' !! file_path c ∧
         (r = Ok tt → st_df s1' = st_df s2').
Proof.
  intros Hrun Hfs. unfold main, bind, load_table, load in *. rewrite <- Hfs.
  destruct (match st_files s1 !! file_path c with
            | Some f => read_csv f
            | None => Ok (mkDataFrame (schema "_description") [])
            end) as [df|e].
  - destruct (annotate_same_at c w _
                (mkState df (st_files s2) (st_stdout s2) (st_requests s2)) _ _ Hrun)
      as (s2' & H2 & Hdf & Hf); [by split|].
    exists s2'. by rewrite H2.
  - injection Hrun as <- <-. by exists s2.
Qed.

(** X21: a script depends on its own file only: started with another table
    in memory, with other files beside its own, after other output, it ends
    in the same way, with the same file, and with the same table when it
    ends normally. *)
Theorem main_depends_on_own_file (c : loop_config) (w : world) (s1 s2 : state)
    (r : result unit) (s1' : state) :
  main c w s1 = (r, s1') →
  st_files s1 !! file_path c = st_files s2 !! file_path c →
  ∃ s2', main c w s2 = (r, s2') ∧
         st_files s1' !! file_path c = st_files s2' !! file_path c ∧
         (r = Ok tt → st_df s1' = st_df s2').
Proof. apply main_same_file. Qed.

Lemma main_depends_on_own_file_witness :
  ∃ s2', main s3 three_units (mkState table_v2 {["notes.csv" := to_csv table_v2]}
                                ["earlier output"] [])
         = (Ok tt, s2') ∧
         st_files (snd (run three_units ∅)) !! file_path s3
         = st_files s2' !! file_path s3 ∧
         (Ok tt = Ok tt → st_df (snd (run three_units ∅)) = st_df s2').
Proof.
  apply (main_depends_on_own_file s3 three_units (mkState (mkDataFrame [] []) ∅ [] [])).
  - vm_compute. reflexivity.
  - reflexivity.
Defined.

Lemma main_stages_cases (w : string → world) (st st' : state) :
  main_stages w st = (Ok tt, st') →
  ∃ a b, main (s4 0 "poses") (w "poses") st = (Ok tt, a) ∧
         main (s4 1 "landmarks") (w "landmarks") a = (Ok tt, b) ∧
         main (s4 2 "combined") (w "combined") b = (Ok tt, st').
Proof.
  unfold main_stages, bind.
  destruct (main (s4 0 "poses") (w "poses") st) as [[[]|e] a] eqn:E0; [|done].
  destruct (main (s4 1 "landmarks") (w "landmarks") a) as [[[]|e] b] eqn:E1; [|done].
  intros H. exists a, b. by repeat split.
Qed.

(** X22: the three stages of the JSON script do not interfere: when the
    script ends normally, each of its three files is the file that its stage
    alone, run on the files of before, writes. *)
Theorem stages_independent (w : string → world) (st st' : state) :
  main_stages w st = (Ok tt, st') →
  ∃ s0 s1 s2,
    main (s4 0 "poses") (w "poses") st = (Ok tt, s0) ∧
    main (s4 1 "landmarks") (w "landmarks") st = (Ok tt, s1) ∧
    main (s4 2 "combined") (w "combined") st = (Ok tt, s2) ∧
    st_files st' !! file_path (s4 0 "poses") = st_files s0 !! file_path (s4 0 "poses") ∧
    st_files st' !! file_path (s4 1 "landmarks")
    = st_files s1 !! file_path (s4 1 "landmarks") ∧
    st_files st' !! file_path (s4 2 "combined")
    = st_files s2 !! file_path (s4 2 "combined").
Proof.
  intros Hrun. destruct (main_stages_cases _ _ _ Hrun) as (a & b & H0 & H1 & H2).
  assert (P01 : file_path (s4 0 "poses") ≠ file_path (s4 1 "landmarks")) by discriminate.
  assert (P02 : file_path (s4 0 "poses") ≠ file_path (s4 2 "combined")) by discriminate.
  assert (P12 : file_path (s4 1 "landmarks") ≠ file_path (s4 2 "combined")) by discriminate.
  assert (P10 : file_path (s4 1 "landmarks") ≠ file_path (s4 0 "poses")) by discriminate.
  assert (P20 : file_path (s4 2 "combined") ≠ file_path (s4 0 "poses")) by discriminate.
  assert (P21 : file_path (s4 2 "combined") ≠ file_path (s4 1 "landmarks")) by discriminate.
  destruct (main_same_file _ _ a st _ _ H1) as (s1 & K1 & F1 & _).
  { apply (main_files _ _ _ _ _ _ H0 P10). }
  destruct (main_same_file _ _ b st _ _ H2) as (s2 & K2 & F2 & _).
  { rewrite (main_files _ _ _ _ _ _ H1 P21). apply (main_files _ _ _ _ _ _ H0 P20). }
  exists a, s1, s2. repeat (split; [done|]). split; [|split].
  - rewrite (main_files _ _ _ _ _ _ H2 P02). apply (main_files _ _ _ _ _ _ H1 P01).
  - rewrite (main_files _ _ _ _ _ _ H2 P12). exact F1.
  - exact F2.
Qed.

Lemma stages_independent_witness :
  ∃ s0 s1 s2,
    main (s4 0 "poses") (stage_world "poses") (start empty_table ∅) = (Ok tt, s0) ∧
    main (s4 1 "landmarks") (stage_world "landmarks") (start empty_table ∅) = (Ok tt, s1) ∧
    main (s4 2 "combined") (stage_world "combined") (start empty_table ∅) = (Ok tt, s2) ∧
    st_files (snd (main_stages stage_world (start empty_table ∅)))
      !! file_path (s4 0 "poses") = st_files s0 !! file_path (s4 0 "poses") ∧
    st_files (snd (main_stages stage_world (start empty_table ∅)))
      !! file_path (s4 1 "landmarks") = st_files s1 !! file_path (s4 1 "landmarks") ∧
    st_files (snd (main_stages stage_world (start empty_table ∅)))
      !! file_path (s4 2 "combined") = st_files s2 !! file_path (s4 2 "combined").
Proof.
  apply (stages_independent stage_world (start empty_table ∅)).
  vm_compute. reflexivity.
Defined.

(** ** The human descriptions *)

Lemma get_loc_elem_of (name : string) (cols : list string) :
  name ∈ cols → ∃ j, get_loc name cols = Some j.
Proof.
  induction cols as [|c cols IH]; [by intros ?%elem_of_nil|].
  intros Hin. simpl. destruct (String.eqb_spec c name) as [->|Hne]; [by eexists|].
  apply elem_of_cons in Hin as [->|Hin]; [done|].
  destruct (IH Hin) as [j ->]. by eexists.
Qed.

Lemma get_locs_total (cols have : list string) :
  (∀ c, c ∈ cols → c ∈ have) → ∃ js, get_locs cols have = Ok js.
Proof.
  induction cols as [|c cols IH]; intros Hall; simpl; [by eexists|].
  destruct (get_loc_elem_of c have) as [j ->]; [apply Hall; left|].
  destruct IH as [js ->]; [intros ? ?; apply Hall; by right|]. by eexists.
Qed.

Lemma get_locs_missing (cols have : list string) (e : exn) :
  get_locs cols have = Raise e →
  ∃ c, e = KeyError c ∧ c ∈ cols ∧ c ∉ have.
Proof.
  induction cols as [|c cols IH]; simpl; [done|].
  destruct (get_loc c have) as [j|] eqn:E.
  - destruct (get_locs cols have) as [js|e']; [done|]. intros [= <-].
    destruct IH as (c' & -> & Hin & Hno); [done|]. exists c'. split; [done|].
    split; [by right|done].
  - intros [= <-]. exists c. split; [done|]. split; [left|].
    intros Hin. destruct (get_loc_elem_of _ _ Hin) as [j Hj]. congruence.
Qed.

Lemma replace_unknown_cells (c : cell) (s : string) :
  replace_unknown c = Some s → c = Some s ∧ contains "unknown" s = false.
Proof.
  destruct c as [t|]; simpl; [|done].
  destruct (contains "unknown" t) eqn:E; [done|]. by intros [= <-].
Qed.

(** X23: the table of human descriptions: from raw annotations that have the
    nine columns of the schema, the script computes a table with exactly
    those columns in the order of the schema, whose rows are the rows of the
    raw table cut down to these columns, every cell that contains [unknown]
    made absent and every other cell kept, in ascending order of the
    identifiers; no text of the result contains [unknown]. *)
Theorem structured_descriptions_result (df : DataFrame) :
  (∀ c, c ∈ schema "_description" → c ∈ columns df) →
  ∃ d js,
    structured_descriptions df = Ok d ∧
    get_locs (schema "_description") (columns df) = Ok js ∧
    columns d = schema "_description" ∧
    rows d ≡ₚ (λ r : list cell, (λ j, replace_unknown (cell_at j r)) <$> js) <$> rows df ∧
    StronglySorted key_order (ids 0 d) ∧
    ∀ r s, r ∈ rows d → Some s ∈ r → contains "unknown" s = false.
Proof.
  intros Hall. destruct (get_locs_total _ _ Hall) as [js Hjs].
  unfold structured_descriptions, select_columns. rewrite Hjs.
  set (d1 := map_cells replace_unknown _).
  assert (Hi : get_loc ID (columns d1) = Some 0%nat) by reflexivity.
  assert (Hrows : rows d1
            = (λ r : list cell, (λ j, replace_unknown (cell_at j r)) <$> js) <$> rows df).
  { unfold d1, map_cells. cbn [rows]. rewrite <- list_fmap_compose.
    apply list_fmap_ext. intros n r _. unfold compose.
    by rewrite <- list_fmap_compose. }
  eexists _, js. split; [by apply sort_values_located|]. split; [done|].
  split; [done|]. split; [|split].
  - cbn [rows]. rewrite <- Hrows. apply isort_Permutation.
  - eapply sort_values_ids_sorted; [exact Hi|]. by apply sort_values_located.
  - cbn [rows]. intros r s Hr Hs.
    rewrite isort_Permutation, Hrows in Hr.
    apply list_elem_of_fmap in Hr as (r0 & -> & _).
    apply list_elem_of_fmap in Hs as (j & Hs & _).
    symmetry in Hs. by apply replace_unknown_cells in Hs as [_ ?].
Qed.

Lemma structured_descriptions_result_witness :
  structured_descriptions raw_annotations
  = Ok (mkDataFrame (schema "_description")
          [[Some "v1"; None; Some "fist"; None; None; None; None; None; None];
           [Some "v2"; Some "palm up"; None; None; None; None; None; None; None]]) ∧
  ∃ d js,
    structured_descriptions raw_annotations = Ok d ∧
    get_locs (schema "_description") (columns raw_annotations) = Ok js ∧
    columns d = schema "_description" ∧
    rows d ≡ₚ (λ r : list cell, (λ j, replace_unknown (cell_at j r)) <$> js)
               <$> rows raw_annotations ∧
    StronglySorted key_order (ids 0 d) ∧
    ∀ r s, r ∈ rows d → Some s ∈ r → contains "unknown" s = false.
Proof.
  split; [vm_compute; reflexivity|].
  apply (structured_descriptions_result raw_annotations).
  intros c Hc. apply (bool_decide_unpack _).
  revert c Hc. apply Forall_forall. apply (bool_decide_unpack _).
  vm_compute. exact I.
Defined.

(** X24: raw annotations that lack a column of the schema stop the script
    with a [KeyError] for a missing label, and no file is written. *)
Theorem structured_descriptions_missing (fs : files) (f : csv) (df : DataFrame)
    (c : string) :
  fs !! ELICIT_CAM = Some f → read_csv f = Ok df →
  c ∈ schema "_description" → c ∉ columns df →
  ∃ c', s0_main fs = Raise (KeyError c') ∧
        c' ∈ schema "_description" ∧ c' ∉ columns df.
Proof.
  intros Hf Hread Hc Hno. unfold s0_main. rewrite Hf, Hread.
  unfold structured_descriptions, select_columns.
  destruct (get_locs (schema "_description") (columns df)) as [js|e] eqn:E.
  - exfalso. revert js E. generalize (schema "_description") Hc.
    induction l as [|c0 l IH]; [by intros ?%elem_of_nil|].
    intros Hin js. simpl. destruct (get_loc c0 (columns df)) as [j|] eqn:Ej; [|done].
    destruct (get_locs l (columns df)) as [js'|] eqn:El; [|done]. intros _.
    apply elem_of_cons in Hin as [->|Hin]; [|by eapply IH].
    apply get_loc_lookup in Ej. apply Hno. by eapply list_elem_of_lookup_2.
  - destruct (get_locs_missing _ _ _ E) as (c' & -> & H1 & H2). by exists c'.
Qed.

Lemma structured_descriptions_missing_witness :
  ∃ c', s0_main {[ELICIT_CAM := file_raised]} = Raise (KeyError c') ∧
        c' ∈ schema "_description" ∧ c' ∉ header file_raised.
Proof.
  assert (Hread : read_csv file_raised
            = Ok (mkDataFrame (header file_raised)
                    [[Some "v1"; Some "No gesture performed."; Some "Hand raised."];
                     [Some "v2"; Some "Thumb up."; None]])) by reflexivity.
  assert (Hf : ({[ELICIT_CAM := file_raised]} : files) !! ELICIT_CAM = Some file_raised)
    by reflexivity.
  apply (structured_descriptions_missing {[ELICIT_CAM := file_raised]} file_raised _
           "c3_description" Hf Hread).
  - apply (bool_decide_unpack _). vm_compute. exact I.
  - apply (bool_decide_unpack _). vm_compute. exact I.
Defined.
(** ** The command loop *)

Lemma command_column_not_ID (n : nat) : command_column n ≠ ID.
Proof. discriminate. Qed.

Lemma guarded_set_cell_kept_at (df df2 : DataFrame) (k col result : string) :
  col ≠ ID →
  needs_work df k col = Ok true →
  set_cell df k col result = Ok df2 →
  kept df df2.
Proof.
  intros Hcol Hwork Hset. split; [by eapply set_cell_columns|].
  intros key col' cs v Hsel Hv. exists cs. split; [|done].
  destruct (needs_work_locs _ _ _ _ Hwork) as (i & j & Hi & Hj & Hall).
  eapply set_cell_selected_other; [done..|].
  destruct (decide (key = k)) as [->|Hne]; [|by left]. right. intros ->.
  rewrite (selected_located _ _ _ i j Hi Hj) in Hsel. injection Hsel as <-.
  by eapply forallb_isna_absent.
Qed.

(** The ways through [process_description]: the table and the files are
    left as they are, or the normalised answer is assigned under the guard
    and the table saved; a request is sent for a present description
    only. *)
Lemma process_description_cases (p : predictor) (path k : string) (n : nat)
    (description : cell) (s : state) (r : result unit) (s' : state) :
  process_description p path k n description s = (r, s') →
  ((st_df s' = st_df s ∧ st_files s' = st_files s)
   ∨ (∃ response_content,
        needs_work (st_df s) k (command_column n) = Ok true ∧
        set_cell (st_df s) k (command_column n) (command_value response_content)
        = Ok (st_df s') ∧
        st_files s' = <[path := to_csv (st_df s')]> (st_files s))) ∧
  (st_requests s' = st_requests s
   ∨ ∃ d, description = Some d ∧ st_requests s' = st_requests s ++ [[d]]).
Proof.
  unfold process_description. destruct description as [d|].
  2:{ unfold ret. intros [= <- <-]. auto. }
  fold (command_column n).
  cbv beta delta [bind lift assign_df print read_df try predict_ucp_command
                  ret raise save].
  cbn [st_df st_files st_stdout st_requests].
  destruct (needs_work (st_df s) k (command_column n)) as [[|]|e] eqn:Hwork;
    [|returned; auto..].
  destruct (get_azure_openai_client (p_environment p)) as [client|e];
    cbn [st_df st_files st_stdout st_requests].
  2:{ destruct e; returned; auto. }
  destruct (p_chat p client d) as [content|e];
    cbn [st_df st_files st_stdout st_requests].
  - fold (command_value content).
    destruct (set_cell (st_df s) k (command_column n) (command_value content))
      as [df2|e] eqn:Hset; returned; cbn [st_df st_files st_requests].
    + split; [right; by exists content|right; by exists d].
    + split; [by left|right; by exists d].
  - destruct e; returned; cbn [st_df st_files st_requests];
      (split; [by left|right; by exists d]).
Qed.

Lemma process_description_kept (p : predictor) (path k : string) (n : nat)
    (description : cell) (s : state) (r : result unit) (s' : state) :
  process_description p path k n description s = (r, s') → kept (st_df s) (st_df s').
Proof.
  intros H. destruct (process_description_cases _ _ _ _ _ _ _ _ H)
    as [[[-> _]|(content & Hwork & Hset & _)] _]; [apply kept_refl|].
  eapply guarded_set_cell_kept_at; [apply command_column_not_ID|done..].
Qed.

(** The ways through [process_row]: the row cannot be ensured, or it is and
    the loop over the descriptions runs. *)
Lemma process_row_cases (p : predictor) (path : string) (row : string * list cell)
    (s : state) (r : result unit) (s' : state) :
  process_row p path row s = (r, s') →
  (∃ e, ensure_row (st_df s) (fst row) = Raise e ∧ r = Raise e ∧ s' = s)
  ∨ ∃ df1, ensure_row (st_df s) (fst row) = Ok df1 ∧
           for_each (zip (seq 0 (length (snd row))) (snd row))
             (λ x, process_description p path (fst row) (fst x) (snd x))
             (mkState df1 (st_files s) (st_stdout s) (st_requests s)) = (r, s').
Proof.
  unfold process_row, bind, assign_df.
  destruct (ensure_row (st_df s) (fst row)) as [df1|e].
  - intros H. right. by exists df1.
  - intros [= <- <-]. left. by exists e.
Qed.

(** A property of tables that [ensure_row], the guarded assignment of a
    normalised answer and [sort_values] keep holds after the command loop,
    however it ends. *)
Lemma predict_commands_invariant (P : DataFrame → Prop) (p : predictor) (path : string)
    (annotations : list (string * list cell)) (st : state) (r : result unit) (st' : state) :
  (∀ df k df1, P df → ensure_row df k = Ok df1 → P df1) →
  (∀ df k n content df2,
     P df → needs_work df k (command_column n) = Ok true →
     set_cell df k (command_column n) (command_value content) = Ok df2 → P df2) →
  (∀ df df', P df → sort_values df = Ok df' → P df') →
  predict_commands p path annotations st = (r, st') →
  P (st_df st) → P (st_df st').
Proof.
  intros Hrow Hset Hsort Hrun HP.
  assert (Hloop : ∀ r1 s1, for_each annotations (process_row p path) st = (r1, s1) →
                           P (st_df s1)).
  { intros r1 s1. apply (for_each_invariant (λ s, P (st_df s))); [|done].
    intros row s r2 s2 _ Hs Hpass.
    destruct (process_row_cases _ _ _ _ _ _ Hpass) as [(e & _ & _ & ->)|(df1 & He & Hds)];
      [done|].
    revert Hds. apply (for_each_invariant (λ s, P (st_df s))).
    - intros x a r3 a' _ Ha Hd.
      destruct (process_description_cases _ _ _ _ _ _ _ _ Hd)
        as [[[-> _]|(content & Hw & Hs' & _)] _]; [done|]. by eapply Hset.
    - cbn [st_df]. by eapply Hrow. }
  unfold predict_commands, bind in Hrun.
  destruct (for_each annotations (process_row p path) st) as [[[]|e] s1] eqn:E.
  - specialize (Hloop _ _ eq_refl). unfold assign_df, save in Hrun.
    destruct (sort_values (st_df s1)) as [df'|e] eqn:Es.
    + injection Hrun as <- <-. cbn [st_df]. by eapply Hsort.
    + by injection Hrun as <- <-.
  - injection Hrun as <- <-. by apply (Hloop _ _ eq_refl).
Qed.

(** X25: the command loop never overwrites a command: a cell of the table
    of commands that holds a value keeps it through the loop over an
    upstream table, whatever the model answers and however the loop ends. *)
Theorem commands_kept (p : predictor) (path : string)
    (annotations : list (string * list cell)) (st : state) (r : result unit) (st' : state)
    (key col : string) (cs : list cell) (v : string) :
  predict_commands p path annotations st = (r, st') →
  selected (st_df st) key col = Ok cs →
  Some v ∈ cs →
  ∃ cs', selected (st_df st') key col = Ok cs' ∧ cs' ≡ₚ cs.
Proof.
  intros Hrun Hsel Hv.
  assert (Hkept : kept (st_df st) (st_df st')).
  { apply (predict_commands_invariant (kept (st_df st)) p path annotations st r st').
    - intros df k df1 Hk He. eapply kept_trans; [exact Hk|]. by eapply ensure_row_kept.
    - intros df k n content df2 Hk Hw Hs. eapply kept_trans; [exact Hk|].
      eapply guarded_set_cell_kept_at; [apply command_column_not_ID|done..].
    - intros df df' Hk Hs. eapply kept_trans; [exact Hk|]. by apply sort_values_kept.
    - exact Hrun.
    - apply kept_refl. }
  destruct Hkept as [_ Hkept]. by eapply Hkept.
Qed.

Lemma commands_kept_witness :
  ∃ cs', selected (st_df (snd (predict_commands quoting "p.csv" two_rows
                                 (start commands_v1 ∅))))
           "v1" "c1_command" = Ok cs' ∧
         cs' ≡ₚ [Some "Go back"].
Proof.
  apply (commands_kept quoting "p.csv" two_rows (start commands_v1 ∅)
           (fst (predict_commands quoting "p.csv" two_rows (start commands_v1 ∅)))
           _ "v1" "c1_command" [Some "Go back"] "Go back").
  - by destruct (predict_commands quoting "p.csv" two_rows (start commands_v1 ∅)).
  - reflexivity.
  - apply (bool_decide_unpack _). vm_compute. exact I.
Defined.

Lemma ensure_row_origin (df df1 : DataFrame) (k key col : string) (cs : list cell)
    (v : string) :
  ensure_row df k = Ok df1 → col ≠ ID →
  selected df1 key col = Ok cs → Some v ∈ cs →
  ∃ cs0, selected df key col = Ok cs0 ∧ Some v ∈ cs0.
Proof.
  intros Hrow Hcol Hsel Hv.
  destruct (selected_locs _ _ _ _ Hsel) as (i & j & Hi & Hj & ->).
  rewrite (ensure_row_columns _ _ _ Hrow) in Hi, Hj.
  assert (Hij : i ≠ j) by (eapply get_loc_ne; done).
  exists (cell_at j <$> filter (has_id i key) (rows df)).
  split; [by apply selected_located|].
  unfold ensure_row in Hrow. rewrite Hi in Hrow.
  case_bool_decide; injection Hrow as <-; [done|]. cbn [rows] in Hv.
  rewrite filter_app, fmap_app in Hv. apply elem_of_app in Hv as [Hv|Hv]; [done|].
  exfalso. apply list_elem_of_fmap in Hv as (r & Hr & Hin).
  apply list_elem_of_filter in Hin as [_ Hin]. apply list_elem_of_singleton in Hin.
  subst r. by rewrite new_row_slot in Hr.
Qed.

Lemma set_cell_origin (df df2 : DataFrame) (k col' value key col : string)
    (cs : list cell) (v : string) :
  col' ≠ ID →
  needs_work df k col' = Ok true →
  set_cell df k col' value = Ok df2 →
  selected df2 key col = Ok cs → Some v ∈ cs →
  v = value ∨ ∃ cs0, selected df key col = Ok cs0 ∧ Some v ∈ cs0.
Proof.
  intros Hcol Hwork Hset Hsel Hv.
  destruct (needs_work_locs _ _ _ _ Hwork) as (i & j' & Hi & Hj' & _).
  destruct (selected_locs _ _ _ _ Hsel) as (i2 & j & Hi2 & Hj & ->).
  rewrite (set_cell_columns _ _ _ _ _ _ Hwork Hset) in Hi2, Hj.
  assert (i2 = i) by congruence. subst i2.
  assert (Hij : i ≠ j') by (eapply get_loc_ne; done).
  rewrite (set_cell_located df k col' value i j' Hi Hj') in Hset. injection Hset as <-.
  cbn [rows] in Hv. rewrite filter_fmap_stable in Hv.
  2:{ intros r. case_decide; [by apply has_id_insert|done]. }
  rewrite <- list_fmap_compose in Hv.
  apply list_elem_of_fmap in Hv as (r & Hr & Hin). unfold compose in Hr.
  assert (Hold : Some v = cell_at j r →
            ∃ cs0, selected df key col = Ok cs0 ∧ Some v ∈ cs0).
  { intros Hc. eexists. split; [by apply selected_located|].
    apply list_elem_of_fmap. by exists r. }
  case_decide as Hk; [|by right; apply Hold].
  destruct (decide (j = j')) as [->|Hne].
  - destruct (decide (j' < length r)) as [Hlt|Hge].
    + rewrite cell_at_insert_eq in Hr by done. left. by injection Hr.
    + rewrite list_insert_ge in Hr by (unfold cell in *; lia). right. by apply Hold.
  - rewrite cell_at_insert_ne in Hr by done. right. by apply Hold.
Qed.

Lemma sort_values_origin (df df' : DataFrame) (key col : string) (cs : list cell) :
  sort_values df = Ok df' →
  selected df' key col = Ok cs →
  ∃ cs0, selected df key col = Ok cs0 ∧ cs ≡ₚ cs0.
Proof.
  intros Hsort Hsel.
  destruct (selected_locs _ _ _ _ Hsel) as (i & j & Hi & Hj & ->).
  rewrite (sort_values_columns _ _ Hsort) in Hi, Hj.
  eexists. split; [by apply selected_located|].
  by rewrite (sort_values_rows _ _ Hsort).
Qed.

Lemma predict_commands_origin (p : predictor) (path : string)
    (annotations : list (string * list cell)) (st : state) (r : result unit) (st' : state) :
  predict_commands p path annotations st = (r, st') →
  commands_or_old (st_df st) (st_df st').
Proof.
  intros Hrun.
  apply (predict_commands_invariant (commands_or_old (st_df st)) p path annotations
           st r st'); [| | |exact Hrun|].
  - intros df k df1 HP He key col cs v Hcol Hsel Hv.
    destruct (ensure_row_origin _ _ _ _ _ _ _ He Hcol Hsel Hv) as (cs0 & H0 & Hv0).
    by eapply HP.
  - intros df k n content df2 HP Hw Hs key col cs v Hcol Hsel Hv.
    destruct (set_cell_origin _ _ _ _ _ _ _ _ _ (command_column_not_ID n) Hw Hs Hsel Hv)
      as [->|(cs0 & H0 & Hv0)]; [right; by exists content|by eapply HP].
  - intros df df' HP Hs key col cs v Hcol Hsel Hv.
    destruct (sort_values_origin _ _ _ _ _ Hs Hsel) as (cs0 & H0 & Hperm).
    eapply HP; [done..|]. by rewrite <- Hperm.
  - intros key col cs v _ Hsel Hv. left. by exists cs.
Qed.

(** X26: the command loop stores normalised answers only: after the loop
    over an upstream table, however it ends, every text of the table of
    commands outside the identifier column is a text that the same cell
    held before the loop, or the normalised form of a model answer (see
    [command_value]). *)
Theorem commands_normalised (p : predictor) (path : string)
    (annotations : list (string * list cell)) (st : state) (r : result unit) (st' : state)
    (key col : string) (cs : list cell) (v : string) :
  predict_commands p path annotations st = (r, st') →
  col ≠ ID →
  selected (st_df st') key col = Ok cs → Some v ∈ cs →
  (∃ cs0, selected (st_df st) key col = Ok cs0 ∧ Some v ∈ cs0)
  ∨ ∃ response_content, v = command_value response_content.
Proof. intros Hrun. by apply (predict_commands_origin _ _ _ _ _ _ Hrun). Qed.

Lemma commands_normalised_witness :
  selected (st_df (snd (predict_commands quoting "p.csv" two_rows (start commands_v1 ∅))))
    "v2" "c2_command" = Ok [Some "Volume up"] ∧
  ((∃ cs0, selected commands_v1 "v2" "c2_command" = Ok cs0 ∧ Some "Volume up" ∈ cs0)
   ∨ ∃ response_content, "Volume up" = command_value response_content).
Proof.
  split; [vm_compute; reflexivity|].
  apply (commands_normalised quoting "p.csv" two_rows (start commands_v1 ∅)
           (fst (predict_commands quoting "p.csv" two_rows (start commands_v1 ∅)))
           (snd (predict_commands quoting "p.csv" two_rows (start commands_v1 ∅)))
           "v2" "c2_command" [Some "Volume up"]).
  - by destruct (predict_commands quoting "p.csv" two_rows (start commands_v1 ∅)).
  - discriminate.
  - vm_compute. reflexivity.
  - apply (bool_decide_unpack _). vm_compute. exact I.
Defined.

Lemma descriptions_requests (p : predictor) (path k : string) (ds : list cell) :
  ∀ a s r s',
    for_each (zip (seq a (length ds)) ds)
      (λ x, process_description p path k (fst x) (snd x)) s = (r, s') →
    ∃ new, st_requests s' = st_requests s ++ new ∧
           new `sublist_of` ((λ d, [d]) <$> omap id ds).
Proof.
  induction ds as [|d ds IH]; intros a s r s'; simpl.
  - unfold ret. intros [= <- <-]. exists []. by rewrite app_nil_r.
  - unfold bind.
    destruct (process_description p path k a d s) as [r1 s1] eqn:E.
    destruct (process_description_cases _ _ _ _ _ _ _ _ E) as [_ Hreq].
    assert (Hstep : ∀ new, new `sublist_of` ((λ d, [d]) <$> omap id ds) →
              ∃ new', st_requests s1 ++ new = st_requests s ++ new' ∧
                      new' `sublist_of` ((λ d, [d]) <$> omap id (d :: ds))).
    { intros new Hsub. destruct Hreq as [->|(d0 & -> & ->)].
      - exists new. split; [done|]. destruct d; simpl; [by apply sublist_cons|done].
      - exists ([d0] :: new). split; [by rewrite <- app_assoc|].
        simpl. by apply sublist_skip. }
    destruct r1 as [[]|e].
    + intros Hrest. destruct (IH _ _ _ _ Hrest) as (new & -> & Hsub). by apply Hstep.
    + intros [= <- <-]. destruct (Hstep [] (sublist_nil_l _)) as (new' & Hnew & Hsub).
      exists new'. by rewrite <- Hnew, app_nil_r.
Qed.

Lemma rows_requests (p : predictor) (path : string)
    (annotations : list (string * list cell)) :
  ∀ s r s', for_each annotations (process_row p path) s = (r, s') →
  ∃ new, st_requests s' = st_requests s ++ new ∧
         new `sublist_of` ((λ d, [d]) <$> present_descriptions annotations).
Proof.
  unfold present_descriptions.
  induction annotations as [|row rows IH]; intros s r s'; simpl.
  - unfold ret. intros [= <- <-]. exists []. by rewrite app_nil_r.
  - unfold bind. destruct (process_row p path row s) as [r1 s1] eqn:E.
    assert (Hrow : ∃ new, st_requests s1 = st_requests s ++ new ∧
                          new `sublist_of` ((λ d, [d]) <$> omap id (snd row))).
    { destruct (process_row_cases _ _ _ _ _ _ E) as [(e & _ & _ & ->)|(df1 & _ & Hds)].
      - exists []. split; [by rewrite app_nil_r|apply sublist_nil_l].
      - by apply descriptions_requests in Hds. }
    destruct Hrow as (new1 & Hnew1 & Hsub1). rewrite fmap_app.
    destruct r1 as [[]|e].
    + intros Hrest. destruct (IH _ _ _ Hrest) as (new2 & -> & Hsub2).
      exists (new1 ++ new2). split; [by rewrite Hnew1, <- app_assoc|].
      by apply sublist_app.
    + intros [= <- <-]. exists new1. split; [done|].
      by apply sublist_inserts_r.
Qed.

(** X27: the requests of the command loop are descriptions: what the loop
    sends, in the order in which it sends it, is a subsequence of the
    present descriptions of the upstream rows, one description per request;
    a missing description costs no request. *)
Theorem requests_are_descriptions (p : predictor) (path : string)
    (annotations : list (string * list cell)) (st : state) (r : result unit) (st' : state) :
  predict_commands p path annotations st = (r, st') →
  ∃ new, st_requests st' = st_requests st ++ new ∧
         new `sublist_of` ((λ d, [d]) <$> present_descriptions annotations).
Proof.
  unfold predict_commands, bind.
  destruct (for_each annotations (process_row p path) st) as [r1 s1] eqn:E.
  apply rows_requests in E. destruct r1 as [[]|e].
  - unfold assign_df, save. destruct (sort_values (st_df s1)); by intros [= <- <-].
  - by intros [= <- <-].
Qed.

Lemma requests_are_descriptions_witness :
  st_requests (snd (predict_commands quoting "p.csv" two_rows (start commands_v1 ∅)))
  = [["Thumb points up"]; ["Index finger draws a circle"]] ∧
  ∃ new, st_requests (snd (predict_commands quoting "p.csv" two_rows
                             (start commands_v1 ∅))) = [] ++ new ∧
         new `sublist_of` ((λ d, [d]) <$> present_descriptions two_rows).
Proof.
  split; [vm_compute; reflexivity|].
  apply (requests_are_descriptions quoting "p.csv" two_rows (start commands_v1 ∅)
           (fst (predict_commands quoting "p.csv" two_rows (start commands_v1 ∅)))).
  by destruct (predict_commands quoting "p.csv" two_rows (start commands_v1 ∅)).
Defined.

(** ** Normalised commands, again *)

Lemma normalize_shape (s : string) :
  all_chars letter_or_space (normalize s) = true ∧
  (∀ c, first_char (normalize s) = Some c → is_space c = false) ∧
  (∀ c, last_char (normalize s) = Some c → is_space c = false) ∧
  (∀ c t, normalize s = String c t →
     is_upper c = true ∧ all_chars (λ x, negb (is_upper x)) t = true) ∧
  command_value s = normalize s.
Proof.
  destruct (strip_shape _ (sub_non_alpha_chars s)) as (H1 & H2 & H3).
  destruct (capitalize_shape _ H1 H2 H3) as (K1 & K2 & K3 & K4).
  assert (F : ∀ c, first_char (normalize s) = Some c → is_space c = false)
    by (intros c Hc; by apply is_alpha_not_space, K2).
  assert (L : ∀ c, last_char (normalize s) = Some c → is_space c = false)
    by (intros c Hc; by apply is_alpha_not_space, K3).
  repeat split; try done; try (by eapply K4).
  unfold command_value. by apply strip_fixed.
Qed.

Lemma sub_non_alpha_fixed (s : string) :
  all_chars letter_or_space s = true → sub_non_alpha s = s.
Proof.
  induction s as [|c s IH]; [done|]. simpl.
  intros [Hc Hs]%andb_true_iff. rewrite IH by done.
  destruct (is_alpha c) eqn:E; [done|].
  unfold letter_or_space in Hc. rewrite E in Hc. simpl in Hc.
  apply Ascii.eqb_eq in Hc. by subst c.
Qed.

Lemma map_chars_lower_fixed (s : string) :
  all_chars (λ x, negb (is_upper x)) s = true → map_chars lower s = s.
Proof.
  induction s as [|c s IH]; [done|]. simpl.
  intros [Hc Hs]%andb_true_iff. rewrite IH by done.
  unfold lower. apply negb_true_iff in Hc. by rewrite Hc.
Qed.

Lemma upper_fixed (c : ascii) : is_upper c = true → upper c = c.
Proof.
  unfold upper, is_upper, is_lower. intros H.
  apply andb_true_iff in H as [H1 H2]. apply Nat.leb_le in H1, H2.
  destruct (97 <=? nat_of_ascii c)%nat eqn:E; [|done].
  apply Nat.leb_le in E. lia.
Qed.

Lemma normalize_fixed (s : string) : normalize (normalize s) = normalize s.
Proof.
  destruct (normalize_shape s) as (H1 & H2 & H3 & H4 & _).
  unfold normalize at 1. rewrite sub_non_alpha_fixed by done.
  rewrite strip_fixed by done.
  destruct (normalize s) as [|c t] eqn:E; [done|].
  destruct (H4 c t eq_refl) as [Hc Ht]. simpl.
  by rewrite upper_fixed, map_chars_lower_fixed.
Qed.

(** X28: the normalisation of an answer is idempotent: a normalised command
    given to the normalisation again comes back as it is. *)
Theorem normalize_idempotent (response_content : string) :
  normalize (normalize response_content) = normalize response_content ∧
  command_value (command_value response_content) = command_value response_content.
Proof.
  destruct (normalize_shape response_content) as (_ & _ & _ & _ & ->).
  destruct (normalize_shape (normalize response_content)) as (_ & _ & _ & _ & ->).
  split; apply normalize_fixed.
Qed.

Lemma command_value_na (s : string) :
  command_value s ∈ na_values → command_value s = "" ∨ command_value s = "None".
Proof.
  destruct (normalize_shape s) as (H1 & _ & _ & H4 & ->).
  unfold na_values. rewrite !elem_of_cons, elem_of_nil.
  intros H.
  repeat (destruct H as [H|H];
          [first [ by left | by right
                 | exfalso; rewrite H in H1; discriminate H1
                 | exfalso; destruct (H4 _ _ H) as [K1 K2];
                   first [discriminate K1 | discriminate K2] ]|]).
  done.
Qed.

(** X29: the commands that do not survive a reload: the value stored for an
    answer is read back as absent from the saved table exactly when it is
    the empty text (an answer without any letter) or [None] (the answer
    [none], in any case and with any punctuation). *)
Theorem command_read_back (response_content : string) :
  read_field (command_value response_content) = None
  ↔ command_value response_content = "" ∨ command_value response_content = "None".
Proof.
  unfold read_field. case_bool_decide as Hin; split; try done.
  - intros _. by apply command_value_na.
  - intros [H|H]; exfalso; apply Hin; rewrite H;
      apply (bool_decide_unpack _); vm_compute; exact I.
Qed.
